(** * CSV user combiner: the record pipeline of [src/App.jsx]

    A shallow embedding of the data path of the [CSVUserCombiner] component:
    the [complete] callback handed to the CSV parser (row filter, field
    extraction, per-file summary), the batch loop of [processFiles] and the
    duplicate detector [findDuplicates].

    Scope of the embedding.
    - Strings are Rocq [string]s: sequences of bytes that hold the text.
    - The names of the columns are compared with the ASCII names of the
      target fields.  [JS.toLowerCase] lowers the letters A-Z and leaves
      every other character alone, which decides these comparisons as the
      engine does: no character outside A-Z lowercases to a letter of
      ["type"], ["display name"], ["name"] or ["domain"].
    - The identity values are arbitrary text.  The detector is therefore
      embedded a second time, in [Engine], over the engine's own
      [String.prototype.toLowerCase] and [String.prototype.trim], taken as
      parameters; what is proved there holds whatever these two functions
      do to text outside ASCII.  The top-level detector is the instance of
      [Engine] at [JS.toLowerCase] and [JS.trim] ([JS.trim] strips the ASCII
      white space: tab, line feed, vertical tab, form feed, carriage
      return, space); the sample tables run on it.
    - JavaScript numbers are modelled as integers ([Z]); [ToString] prints
      them in decimal, which is what [String(n)] gives for every integer
      below 10^21 in magnitude.  Non-integer numbers are outside the model.
    - Objects are association lists in [Object.keys] order.
    - The parser is outside the component: what it hands to its callbacks
      is an input of the model. *)

From Stdlib Require Import List String Ascii ZArith Bool Arith Lia.
From Stdlib Require Import DecimalString.
Import ListNotations.

Local Open Scope string_scope.
Local Open Scope list_scope.

(* ================================================================== *)
(** ** JavaScript values, strings and objects *)
(* ================================================================== *)

Module JS.

(** The values a parsed cell or a record field can hold.  [VObj repr]
    stands for any object value (a [Date], the array stored under
    [__parsed_extra]): it is truthy and [repr] is what [String] makes of it. *)
Inductive value : Type :=
| VUndefined
| VNull
| VBool (b : bool)
| VNum (z : Z)
| VStr (s : string)
| VObj (repr : string).

(** ToBoolean: what [if (v)], [!v], [v && ...] and [Array.some] test. *)
Definition truthy (v : value) : bool :=
  match v with
  | VUndefined => false
  | VNull => false
  | VBool b => b
  | VNum z => negb (z =? 0)%Z
  | VStr s => negb (s =? "")
  | VObj _ => true
  end.

(** [String(v)]. *)
Definition ToString (v : value) : string :=
  match v with
  | VUndefined => "undefined"
  | VNull => "null"
  | VBool true => "true"
  | VBool false => "false"
  | VNum z => NilZero.string_of_int (Z.to_int z)
  | VStr s => s
  | VObj repr => repr
  end.

(** *** String.prototype.toLowerCase *)

Definition lowerChar (c : ascii) : ascii :=
  let n := nat_of_ascii c in
  if ((65 <=? n) && (n <=? 90))%nat then ascii_of_nat (n + 32) else c.

Fixpoint toLowerCase (s : string) : string :=
  match s with
  | EmptyString => EmptyString
  | String c s' => String (lowerChar c) (toLowerCase s')
  end.

(** *** String.prototype.trim *)

Definition isWhiteSpace (c : ascii) : bool :=
  let n := nat_of_ascii c in
  (((9 <=? n) && (n <=? 13)) || (n =? 32))%nat.

Fixpoint trimStart (s : string) : string :=
  match s with
  | EmptyString => EmptyString
  | String c s' => if isWhiteSpace c then trimStart s' else s
  end.

Fixpoint trimEnd (s : string) : string :=
  match s with
  | EmptyString => EmptyString
  | String c s' =>
      match trimEnd s' with
      | EmptyString => if isWhiteSpace c then EmptyString else String c EmptyString
      | t => String c t
      end
  end.

Definition trim (s : string) : string := trimEnd (trimStart s).

(** *** Objects: own enumerable properties in [Object.keys] order *)

Definition object : Type := list (string * value).

Definition Object_keys (o : object) : list string := map fst o.

(** [o[k]]: [undefined] when [o] has no property [k]. *)
Fixpoint get (o : object) (k : string) : value :=
  match o with
  | [] => VUndefined
  | (k', v) :: o' => if k' =? k then v else get o' k
  end.

(** [o[k] = v]: overwrite in place, or add as the last property. *)
Fixpoint set (o : object) (k : string) (v : value) : object :=
  match o with
  | [] => [(k, v)]
  | (k', v') :: o' => if k' =? k then (k', v) :: o' else (k', v') :: set o' k v
  end.

(** [keys.find(p)]: the first key that satisfies [p], or [undefined]. *)
Definition find (p : string -> bool) (keys : list string) : value :=
  match List.find p keys with
  | Some k => VStr k
  | None => VUndefined
  end.

(** [arr.includes(x)] on an array of strings. *)
Definition includes (arr : list string) (x : string) : bool :=
  existsb (fun y => y =? x) arr.

(** [arr.forEach((x, index) => ...)] threading the state the callback
    mutates; [i] is the index of the head of [arr]. *)
Fixpoint forEach {A S : Type} (f : S -> A -> nat -> S) (arr : list A) (i : nat) (s : S) : S :=
  match arr with
  | [] => s
  | x :: arr' => forEach f arr' (Datatypes.S i) (f s x i)
  end.

(** *** [Map]: string keys in insertion order, array values *)

Definition Map (V : Type) : Type := list (string * V).

Definition Map_has {V : Type} (m : Map V) (k : string) : bool :=
  existsb (fun e => fst e =? k) m.

Fixpoint Map_set {V : Type} (m : Map V) (k : string) (v : V) : Map V :=
  match m with
  | [] => [(k, v)]
  | (k', v') :: m' => if k' =? k then (k', v) :: m' else (k', v') :: Map_set m' k v
  end.

(** [m.get(k).push(x)]: the array stored under [k] is extended in place;
    nothing happens to the map when [k] is absent (the source never does
    that: it sets the key first). *)
Fixpoint Map_push {V : Type} (m : Map (list V)) (k : string) (x : V) : Map (list V) :=
  match m with
  | [] => []
  | (k', xs) :: m' => if k' =? k then (k', xs ++ [x]) :: m' else (k', xs) :: Map_push m' k x
  end.

End JS.

Import JS.

(* ================================================================== *)
(** ** The parser's side of the interface *)
(* ================================================================== *)

(** A [File] of the upload; only its [name] is read. *)
Record File : Type := { name : string }.

(** What [Papa.parse] hands to [complete]: the rows ([result.data], one
    object per row, keyed by header), the row-level [result.errors] and
    [result.meta.fields], the header's column list ([None] when the parser
    leaves it undefined). *)
Record ParseResult : Type := {
  data : list object;
  errors : list string;
  meta_fields : option (list string)
}.

(** The parser ends a file with [complete(result)] or with [error(err)]. *)
Inductive ParseOutcome : Type :=
| Complete (result : ParseResult)
| Error (err : string).

(* ================================================================== *)
(** ** [processFiles]: the [complete] callback *)
(* ================================================================== *)

Definition requiredFields : list string :=
  ["Type"; "Display Name"; "Name"; "Domain"].

(** [Object.keys(result.data.length > 0 ? result.data[0] : {})]. *)
Definition firstRowKeys (result : ParseResult) : list string :=
  Object_keys (if (0 <? List.length (data result))%nat
               then nth 0 (data result) []
               else []).

(** [const typeField = Object.keys(...).find(key => key.toLowerCase() === 'type')]. *)
Definition typeField (result : ParseResult) : value :=
  find (fun key => toLowerCase key =? "type") (firstRowKeys result).

(** The callback of [result.data.filter]. *)
Definition keepRow (typeField : value) (row : object) : bool :=
  if negb (truthy typeField) then true
  else toLowerCase (ToString (get row (ToString typeField))) =? "user".

(** The body of [requiredFields.forEach] inside the [map] callback. *)
Definition extractField (row : object) (extractedData : object) (field : string) : object :=
  let actualFieldName :=
    find (fun key => toLowerCase key =? toLowerCase field) (Object_keys row) in
  if truthy actualFieldName
  then set extractedData field (get row (ToString actualFieldName))
  else set extractedData field (VStr "").

(** The callback of [.map]: one extracted record per retained row. *)
Definition extractRow (file : File) (i : nat) (row : object) : object :=
  let extractedData := fold_left (extractField row) requiredFields [] in
  let extractedData := set extractedData "__source_file" (VStr (name file)) in
  set extractedData "__file_index" (VNum (Z.of_nat i)).

(** The rows that pass [.filter], before [.map]. *)
Definition retainedRows (result : ParseResult) : list object :=
  filter (keepRow (typeField result)) (data result).

Definition filteredData (file : File) (i : nat) (result : ParseResult) : list object :=
  map (extractRow file i) (retainedRows result).

Record FileSummary : Type := {
  fileName : string;
  totalRowCount : nat;
  userRowCount : nat;
  hasTypeField : bool;
  availableFields : list string;
  missingFields : list string;
  columns : list string
}.

(** The object pushed onto [fileResults]. *)
Definition fileSummary (file : File) (i : nat) (result : ParseResult) : FileSummary :=
  let availableFields :=
    filter (fun field =>
              existsb (fun key => toLowerCase key =? toLowerCase field)
                      (firstRowKeys result))
           requiredFields in
  {| fileName := name file;
     totalRowCount := List.length (data result);
     userRowCount := List.length (filteredData file i result);
     hasTypeField := negb (negb (truthy (typeField result)));
     availableFields := availableFields;
     missingFields := filter (fun field => negb (includes availableFields field)) requiredFields;
     columns := match meta_fields result with Some fields => fields | None => [] end |}.

(** The two accumulators of [processFiles]. *)
Definition Acc : Type := (list object * list FileSummary)%type.

Definition complete (file : File) (i : nat) (result : ParseResult) (acc : Acc) : Acc :=
  let '(allUsers, fileResults) := acc in
  (allUsers ++ filteredData file i result,
   fileResults ++ [fileSummary file i result]).

(* ================================================================== *)
(** ** [findDuplicates] *)
(* ================================================================== *)

Record DuplicateGroup : Type := {
  strategy : string;
  duplicateValue : string;
  records : list object;
  originalName : value
}.

Definition nameField : string := "Name".

(** The callback of [data.forEach]; [nameMap] is the [Map] it fills. *)
Definition groupRecord (nameMap : Map (list object)) (record : object) (index : nat)
  : Map (list object) :=
  let nameValue := get record nameField in
  if truthy nameValue && negb (trim (ToString nameValue) =? "") then
    let normalizedName := trim (toLowerCase (ToString nameValue)) in
    let nameMap :=
      if negb (Map_has nameMap normalizedName)
      then Map_set nameMap normalizedName []
      else nameMap in
    Map_push nameMap normalizedName
             (set record "__original_index" (VNum (Z.of_nat index)))
  else nameMap.

(** The callback of [nameMap.forEach]. *)
Definition emitGroup (duplicateGroups : list DuplicateGroup) (entry : string * list object)
  : list DuplicateGroup :=
  let '(nameValue, records) := entry in
  if (1 <? List.length records)%nat then
    duplicateGroups ++
      [ {| strategy := "Name";
           duplicateValue := nameValue;
           records := records;
           originalName := get (nth 0 records []) nameField |} ]
  else duplicateGroups.

Definition findDuplicates (data : list object) : list DuplicateGroup :=
  if negb (existsb (fun record => truthy (get record nameField)) data) then []
  else
    let nameMap := forEach groupRecord data 0 [] in
    fold_left emitGroup nameMap [].

(* ================================================================== *)
(** ** [processFiles]: the batch loop and the run summary *)
(* ================================================================== *)

Record RunSummary : Type := {
  totalRecords : nat;
  totalFiles : nat;
  fileDetails : list FileSummary;
  hasNameField : bool;
  duplicateCount : nat;
  duplicateGroups : nat;
  totalOriginalRecords : nat
}.

(** What a run that reaches [setResults] publishes. *)
Record Output : Type := {
  combinedData : list object;
  duplicates : list DuplicateGroup;
  results : RunSummary
}.

(** The [for] loop over [files]; a file whose parse ends in [error]
    rejects the awaited promise and the loop is left through [catch]. *)
Fixpoint processLoop (files : list (File * ParseOutcome)) (i : nat) (acc : Acc) : option Acc :=
  match files with
  | [] => Some acc
  | (file, Complete result) :: rest => processLoop rest (S i) (complete file i result acc)
  | (file, Error _) :: rest => None
  end.

Definition nameFieldPresent (allUsers : list object) : bool :=
  (0 <? List.length allUsers)%nat && existsb (fun record => truthy (get record "Name")) allUsers.

Definition summarise (nfiles : nat) (acc : Acc) : Output :=
  let '(allUsers, fileResults) := acc in
  let hasNameField := nameFieldPresent allUsers in
  let duplicateGroups := findDuplicates allUsers in
  {| combinedData := allUsers;
     duplicates := duplicateGroups;
     results :=
       {| totalRecords := List.length allUsers;
          totalFiles := nfiles;
          fileDetails := fileResults;
          hasNameField := hasNameField;
          duplicateCount :=
            fold_left (fun sum group => sum + List.length (records group)) duplicateGroups 0;
          duplicateGroups := List.length duplicateGroups;
          totalOriginalRecords :=
            fold_left (fun sum file => sum + totalRowCount file) fileResults 0 |} |}.

(** [processFiles]: [None] when nothing is published (no file selected, or
    the run was left through [catch]). *)
Definition processFiles (files : list (File * ParseOutcome)) : option Output :=
  if (List.length files =? 0)%nat then None
  else
    match processLoop files 0 ([], []) with
    | Some acc => Some (summarise (List.length files) acc)
    | None => None
    end.

(* ================================================================== *)
(** ** Vocabulary of the properties *)
(* ================================================================== *)

(** A column name matches a target field when both are equal once
    lowercased. *)
Definition matchesField (field key : string) : bool :=
  toLowerCase key =? toLowerCase field.

(** The key under which [groupRecord] files a record whose identity value
    is [nameValue]; [None] when the record is left out of the map. *)
Definition groupingKey (nameValue : value) : option string :=
  if truthy nameValue && negb (trim (ToString nameValue) =? "")
  then Some (trim (toLowerCase (ToString nameValue)))
  else None.

(** The copy of [record] that [groupRecord] stores: the record with its
    position in the aggregated list. *)
Definition withIndex (index : nat) (record : object) : object :=
  set record "__original_index" (VNum (Z.of_nat index)).

(** The aggregated list with positions, from position [i] on. *)
Fixpoint indexedFrom (i : nat) (data : list object) : list (nat * object) :=
  match data with
  | [] => []
  | record :: data' => (i, record) :: indexedFrom (S i) data'
  end.

Definition hasKey (k : string) (entry : nat * object) : bool :=
  match groupingKey (get (snd entry) nameField) with
  | Some k' => k' =? k
  | None => false
  end.

(** The records filed under key [k], in the order of the list. *)
Definition membersOf (k : string) (items : list (nat * object)) : list object :=
  map (fun entry => withIndex (fst entry) (snd entry)) (filter (hasKey k) items).

(** The keys of the grouped records, one per grouped record, in list order. *)
Fixpoint keysOf (items : list (nat * object)) : list string :=
  match items with
  | [] => []
  | entry :: items' =>
      match groupingKey (get (snd entry) nameField) with
      | Some k => k :: keysOf items'
      | None => keysOf items'
      end
  end.

(** Each key once, at the place of its first occurrence. *)
Fixpoint firstSeen (keys : list string) : list string :=
  match keys with
  | [] => []
  | k :: keys' => k :: filter (fun k' => negb (k' =? k)) (firstSeen keys')
  end.

(** One turn of the [forEach] loop, on a record with its position. *)
Definition fileEntry (nameMap : Map (list object)) (entry : nat * object) : Map (list object) :=
  groupRecord nameMap (snd entry) (fst entry).

(** The group [emitGroup] builds from an entry of the map. *)
Definition groupOf (k : string) (members : list object) : DuplicateGroup :=
  {| strategy := "Name";
     duplicateValue := k;
     records := members;
     originalName := get (nth 0 members []) nameField |}.

(** The map [findDuplicates] holds once [items] have been filed: one entry
    per key, in first-seen order, with the members in list order. *)
Definition groupsTable (items : list (nat * object)) : Map (list object) :=
  map (fun k => (k, membersOf k items)) (firstSeen (keysOf items)).

(** The value of the first column of [row], in the row's key order, whose
    name matches [field]; the empty string when no column matches. *)
Definition lookupField (row : object) (field : string) : value :=
  match List.find (matchesField field) (Object_keys row) with
  | Some key => get row key
  | None => VStr ""
  end.

(** The spec's data model lists the scalars a cell can hold as "string,
    number, boolean, or empty": the empty ones are the missing cell
    ([undefined], [null]) and the empty string. *)
Definition spec_emptyValue (v : value) : bool :=
  match v with
  | VUndefined | VNull => true
  | VStr s => s =? ""
  | _ => false
  end.

(** Whitespace-only: the textual form is not empty and nothing of it is left
    once the surrounding white space is trimmed. *)
Definition spec_whitespaceOnly (v : value) : bool :=
  negb (spec_emptyValue v) && (trim (ToString v) =? "").

(** The spec's normalized key: "trim surrounding whitespace, then
    lowercase". *)
Definition spec_normalizedKey (v : value) : string :=
  toLowerCase (trim (ToString v)).

(** [result.meta.fields || []]: the table's raw column list. *)
Definition columns_of (result : ParseResult) : list string :=
  match meta_fields result with Some fields => fields | None => [] end.

(** The parser builds every row from the header: a row's keys are column
    names of [meta.fields], or [__parsed_extra] for the cells beyond the
    header. *)
Definition rowKeysFromHeader (result : ParseResult) : Prop :=
  forall row key,
    In row (data result) -> In key (Object_keys row) ->
    In key (columns_of result) \/ key = "__parsed_extra".

(* ================================================================== *)
(** ** Sample tables *)
(* ================================================================== *)

Module Samples.

Definition table (rows : list object) (header : list string) : ParseResult :=
  {| data := rows; errors := []; meta_fields := Some header |}.

(** Two files that hold the same user under two spellings. *)
Definition alice1 : ParseResult :=
  table [[("Type", VStr "User"); ("Name", VStr "Alice"); ("Domain", VStr "a.com")]]
        ["Type"; "Name"; "Domain"].

Definition alice2 : ParseResult :=
  table [[("Type", VStr "User"); ("Name", VStr "alice "); ("Domain", VStr "b.com")]]
        ["Type"; "Name"; "Domain"].

Definition twoFiles : list (File * ParseOutcome) :=
  [ ({| name := "one.csv" |}, Complete alice1);
    ({| name := "two.csv" |}, Complete alice2) ].

(** A table with a discriminator column and rows of several kinds. *)
Definition mixedKinds : ParseResult :=
  table [ [("TYPE", VStr "user"); ("Name", VStr "ann")];
          [("TYPE", VStr "Group"); ("Name", VStr "staff")];
          [("TYPE", VNum 7); ("Name", VStr "seven")];
          [("TYPE", VStr "USER"); ("Name", VStr "bob")] ]
        ["TYPE"; "Name"].

(** A table without a discriminator column. *)
Definition noTypeColumn : ParseResult :=
  table [ [("Name", VStr "ann"); ("Domain", VStr "a.com")];
          [("Name", VStr "bob"); ("Domain", VStr "b.com")];
          [("Name", VStr "cy"); ("Domain", VNull)] ]
        ["Name"; "Domain"].

(** A table without an identity column. *)
Definition noNameColumn : ParseResult :=
  table [ [("Type", VStr "User"); ("Domain", VStr "a.com")];
          [("Type", VStr "User"); ("Domain", VStr "a.com")] ]
        ["Type"; "Domain"].

(** A file that holds a header line and no data row. *)
Definition headerOnly : ParseResult :=
  table [] ["Type"; "Name"].

(** Records whose identity cell was typed by the parser as the number 0. *)
Definition zeroNamed : object := [("Type", VStr "User"); ("Name", VNum 0)].

Definition zeroNames : ParseResult :=
  table [zeroNamed; zeroNamed] ["Type"; "Name"].

End Samples.

(* ================================================================== *)
(** ** Export and display of the results *)
(* ================================================================== *)

(** [a || b]. *)
Definition orElse (a b : value) : value := if truthy a then a else b.

(** [{ ...target, ...source }]: the properties of [source] are written onto
    [target] one by one, in [source]'s key order. *)
Definition spread (target source : object) : object :=
  fold_left (fun o e => set o (fst e) (snd e)) source target.

(** The object literal of [copyToClipboard], [downloadDuplicates] and the
    duplicates text area:
    [{ duplicate_name: group.originalName || group.duplicateValue,
       duplicate_type: 'Name', ...record }]. *)
Definition duplicateRow (group : DuplicateGroup) (record : object) : object :=
  spread [ ("duplicate_name", orElse (originalName group) (VStr (duplicateValue group)));
           ("duplicate_type", VStr "Name") ]
         record.

(** [duplicates.flatMap(group => group.records.map(record => ...))]. *)
Definition duplicateRecords (duplicates : list DuplicateGroup) : list object :=
  flat_map (fun group => map (duplicateRow group) (records group)) duplicates.

(** [key.startsWith('__')]. *)
Definition startsWith (key prefix : string) : bool := String.prefix prefix key.

(** [Object.entries(record).filter(([key]) => !key.startsWith('__'))]. *)
Definition shownEntries (record : object) : object :=
  filter (fun entry => negb (startsWith (fst entry) "__")) record.

(** The cells shown for a member of a duplicate group:
    [Object.entries(record).filter(...).slice(0, 5)], each rendered as its
    key and [String(value)]. *)
Definition memberCells (record : object) : list (string * string) :=
  map (fun entry => (fst entry, ToString (snd entry))) (firstn 5 (shownEntries record)).

(** The header of the data preview:
    [combinedData.length > 0 && Object.keys(combinedData[0]).filter(...)];
    nothing is rendered for an empty list. *)
Definition previewHeader (combinedData : list object) : list string :=
  if (0 <? List.length combinedData)%nat
  then filter (fun key => negb (startsWith key "__")) (Object_keys (nth 0 combinedData []))
  else [].

(** The body of the data preview: [combinedData.slice(0, 10)], one row of
    [String(value)] cells per record. *)
Definition previewRows (combinedData : list object) : list (list string) :=
  map (fun record => map (fun entry => ToString (snd entry)) (shownEntries record))
      (firstn 10 combinedData).

(* ================================================================== *)
(** ** Vocabulary of the batch properties *)
(* ================================================================== *)

(** The upload in which every file parses to completion. *)
Definition completed (tables : list (File * ParseResult)) : list (File * ParseOutcome) :=
  map (fun t => (fst t, Complete (snd t))) tables.

(** The extracted records of the tables, table after table, the first
    table being at index [i]. *)
Fixpoint gather (tables : list (File * ParseResult)) (i : nat) : list object :=
  match tables with
  | [] => []
  | t :: rest => filteredData (fst t) i (snd t) ++ gather rest (S i)
  end.

(** The summaries of the tables, in table order. *)
Fixpoint summaries (tables : list (File * ParseResult)) (i : nat) : list FileSummary :=
  match tables with
  | [] => []
  | t :: rest => fileSummary (fst t) i (snd t) :: summaries rest (S i)
  end.

(** Two rows with the same cells under column names that differ by letter
    case only. *)
Definition sameColumns (row row' : object) : Prop :=
  Forall2 (fun e e' => toLowerCase (fst e) = toLowerCase (fst e') /\ snd e = snd e')
          row row'.


Module MoreSamples.

(** A row and the same row under another spelling of its column names. *)
Definition lowerRow : object :=
  [("type", VStr "User"); ("name", VStr "Ann"); ("domain", VStr "a.com")].

Definition upperRow : object :=
  [("TYPE", VStr "User"); ("NAME", VStr "Ann"); ("DOMAIN", VStr "a.com")].


(** Three records, two of which share a name up to case and white space. *)
Definition threeRecords : list object :=
  [ [("Name", VStr "Ann")]; [("Name", VStr "Bob")]; [("Name", VStr " ann ")] ].

(** The group of the two-file sample and its first member. *)
Definition aliceMember : object :=
  withIndex 0 (extractRow {| name := "one.csv" |} 0
                 [("Type", VStr "User"); ("Name", VStr "Alice"); ("Domain", VStr "a.com")]).

Definition aliceGroup : DuplicateGroup :=
  groupOf "alice"
    [ aliceMember;
      withIndex 1 (extractRow {| name := "two.csv" |} 1
                     [("Type", VStr "User"); ("Name", VStr "alice "); ("Domain", VStr "b.com")]) ].

End MoreSamples.

(* ================================================================== *)
(** ** [findDuplicates] over the engine's string functions *)
(* ================================================================== *)

Module Engine.

Section Detector.

(** [String.prototype.toLowerCase] and [String.prototype.trim]. *)
Variable toLowerCase : string -> string.
Variable trim : string -> string.

(** The callback of [data.forEach]; [nameMap] is the [Map] it fills. *)
Definition groupRecord (nameMap : Map (list object)) (record : object) (index : nat)
  : Map (list object) :=
  let nameValue := get record nameField in
  if truthy nameValue && negb (trim (ToString nameValue) =? "") then
    let normalizedName := trim (toLowerCase (ToString nameValue)) in
    let nameMap :=
      if negb (Map_has nameMap normalizedName)
      then Map_set nameMap normalizedName []
      else nameMap in
    Map_push nameMap normalizedName
             (set record "__original_index" (VNum (Z.of_nat index)))
  else nameMap.

Definition findDuplicates (data : list object) : list DuplicateGroup :=
  if negb (existsb (fun record => truthy (get record nameField)) data) then []
  else
    let nameMap := forEach groupRecord data 0 [] in
    fold_left emitGroup nameMap [].

(** The key under which [groupRecord] files a record whose identity value
    is [nameValue]; [None] when the record is left out of the map. *)
Definition groupingKey (nameValue : value) : option string :=
  if truthy nameValue && negb (trim (ToString nameValue) =? "")
  then Some (trim (toLowerCase (ToString nameValue)))
  else None.

Definition hasKey (k : string) (entry : nat * object) : bool :=
  match groupingKey (get (snd entry) nameField) with
  | Some k' => k' =? k
  | None => false
  end.

(** The records filed under key [k], in the order of the list. *)
Definition membersOf (k : string) (items : list (nat * object)) : list object :=
  map (fun entry => withIndex (fst entry) (snd entry)) (filter (hasKey k) items).

(** The keys of the grouped records, one per grouped record, in list order. *)
Fixpoint keysOf (items : list (nat * object)) : list string :=
  match items with
  | [] => []
  | entry :: items' =>
      match groupingKey (get (snd entry) nameField) with
      | Some k => k :: keysOf items'
      | None => keysOf items'
      end
  end.

(** One turn of the [forEach] loop, on a record with its position. *)
Definition fileEntry (nameMap : Map (list object)) (entry : nat * object) : Map (list object) :=
  groupRecord nameMap (snd entry) (fst entry).

(** The map [findDuplicates] holds once [items] have been filed. *)
Definition groupsTable (items : list (nat * object)) : Map (list object) :=
  map (fun k => (k, membersOf k items)) (firstSeen (keysOf items)).

(** Whitespace-only: the value is not empty and nothing of its textual form
    is left once the engine has trimmed it. *)
Definition spec_whitespaceOnly (v : value) : bool :=
  negb (spec_emptyValue v) && (trim (ToString v) =? "").

(** The spec's normalized key: "trim surrounding whitespace, then
    lowercase". *)
Definition spec_normalizedKey (v : value) : string :=
  toLowerCase (trim (ToString v)).

End Detector.

End Engine.

(** A table whose header has a discriminator column and whose first data
    row stops before it. *)
Definition shortFirstRow : ParseResult :=
  {| data := [ [("Name", VStr "bob")];
               [("Name", VStr "staff"); ("Type", VStr "Group")] ];
     errors := [];
     meta_fields := Some ["Name"; "Type"] |}.

(* ================================================================== *)
(** ** Strings: lowercasing and trimming *)
(* ================================================================== *)

Section StringFacts.

Lemma lowerChar_isWhiteSpace (c : ascii) :
  isWhiteSpace (lowerChar c) = isWhiteSpace c.
Proof.
  destruct c as [[] [] [] [] [] [] [] []]; reflexivity.
Qed.

Lemma toLowerCase_empty_iff (s : string) :
  toLowerCase s = "" <-> s = "".
Proof.
  destruct s; simpl; split; intro H; try reflexivity; discriminate H.
Qed.

Lemma toLowerCase_eq_nonempty (key field : string) :
  toLowerCase key = toLowerCase field -> field <> "" -> key <> "".
Proof.
  intros Heq Hfield Hkey. subst key. simpl in Heq.
  apply Hfield. apply toLowerCase_empty_iff. symmetry. exact Heq.
Qed.

Lemma trimStart_toLowerCase (s : string) :
  trimStart (toLowerCase s) = toLowerCase (trimStart s).
Proof.
  induction s as [|c s IH]; simpl; [reflexivity|].
  rewrite lowerChar_isWhiteSpace.
  destruct (isWhiteSpace c); [exact IH | reflexivity].
Qed.

Lemma trimEnd_toLowerCase (s : string) :
  trimEnd (toLowerCase s) = toLowerCase (trimEnd s).
Proof.
  induction s as [|c s IH]; simpl; [reflexivity|].
  rewrite IH, lowerChar_isWhiteSpace.
  destruct (trimEnd s) as [|d t]; simpl.
  - destruct (isWhiteSpace c); reflexivity.
  - reflexivity.
Qed.

(** The source lowercases and then trims; the two steps commute. *)
Lemma trim_toLowerCase (s : string) :
  trim (toLowerCase s) = toLowerCase (trim s).
Proof.
  unfold trim. rewrite trimStart_toLowerCase. apply trimEnd_toLowerCase.
Qed.

Lemma eqb_false_of_neq (s t : string) : s <> t -> (s =? t) = false.
Proof. intro H. apply String.eqb_neq. exact H. Qed.

End StringFacts.

(* ================================================================== *)
(** ** The row filter *)
(* ================================================================== *)

Section RowFilter.

Lemma firstRowKeys_eq (result : ParseResult) :
  firstRowKeys result =
  match data result with
  | row :: _ => Object_keys row
  | [] => []
  end.
Proof.
  unfold firstRowKeys. destruct (data result); reflexivity.
Qed.

Lemma find_Some (p : string -> bool) (keys : list string) (k : string) :
  List.find p keys = Some k -> find p keys = VStr k.
Proof. unfold find. intros ->. reflexivity. Qed.

Lemma find_None (p : string -> bool) (keys : list string) :
  List.find p keys = None -> find p keys = VUndefined.
Proof. unfold find. intros ->. reflexivity. Qed.

(** A key found by a case-insensitive match against a non-empty name is a
    non-empty string, hence truthy. *)
Lemma find_match_truthy (field : string) (keys : list string) (k : string) :
  field <> "" ->
  List.find (matchesField field) keys = Some k ->
  truthy (VStr k) = true.
Proof.
  intros Hfield Hfind. apply find_some in Hfind. destruct Hfind as [_ Hm].
  unfold matchesField in Hm. apply String.eqb_eq in Hm.
  simpl. rewrite eqb_false_of_neq; [reflexivity|].
  eapply toLowerCase_eq_nonempty; eauto.
Qed.

Lemma typeField_found (result : ParseResult) (k : string) :
  typeField result = VStr k ->
  toLowerCase k = "type" /\ In k (firstRowKeys result) /\ truthy (typeField result) = true.
Proof.
  unfold typeField, find. intro H.
  destruct (List.find _ (firstRowKeys result)) as [k'|] eqn:Hfind; [|discriminate H].
  injection H as ->.
  pose proof (find_match_truthy "type" _ _ ltac:(discriminate) Hfind) as Ht.
  apply find_some in Hfind. destruct Hfind as [Hin Hm].
  apply String.eqb_eq in Hm. auto.
Qed.

Lemma typeField_absent (result : ParseResult) :
  (forall key, In key (firstRowKeys result) -> toLowerCase key <> "type") ->
  typeField result = VUndefined.
Proof.
  intro Hnone. unfold typeField. apply find_None.
  destruct (List.find _ (firstRowKeys result)) as [k|] eqn:Hfind; [|reflexivity].
  apply find_some in Hfind. destruct Hfind as [Hin Hm].
  apply String.eqb_eq in Hm. exfalso. exact (Hnone k Hin Hm).
Qed.

Lemma keepRow_found (k : string) (row : object) :
  truthy (VStr k) = true ->
  keepRow (VStr k) row = (toLowerCase (ToString (get row k)) =? "user").
Proof.
  intro Ht. unfold keepRow. rewrite Ht. reflexivity.
Qed.

Lemma filter_all (A : Type) (p : A -> bool) (l : list A) :
  (forall x, In x l -> p x = true) -> filter p l = l.
Proof.
  induction l as [|x l IH]; simpl; intro H; [reflexivity|].
  rewrite (H x (or_introl eq_refl)). f_equal. apply IH.
  intros y Hy. apply H. right. exact Hy.
Qed.

(** When no key of the first row is a discriminator, nothing is filtered. *)
Lemma retainedRows_no_typeField (result : ParseResult) :
  typeField result = VUndefined -> retainedRows result = data result.
Proof.
  intro H. unfold retainedRows. rewrite H. apply filter_all. reflexivity.
Qed.

(** Under the parser's row discipline, a header without a discriminator
    column means that no key of the first row is one. *)
Lemma header_without_type (result : ParseResult) :
  rowKeysFromHeader result ->
  (forall c, In c (columns_of result) -> toLowerCase c <> "type") ->
  forall key, In key (firstRowKeys result) -> toLowerCase key <> "type".
Proof.
  intros Hrows Hcols key Hkey. rewrite firstRowKeys_eq in Hkey.
  destruct (data result) as [|row rest] eqn:Hdata; [contradiction|].
  destruct (Hrows row key) as [Hc | ->].
  - rewrite Hdata. left. reflexivity.
  - exact Hkey.
  - apply Hcols. exact Hc.
  - discriminate.
Qed.

End RowFilter.

(* ================================================================== *)
(** ** Field extraction *)
(* ================================================================== *)

Section FieldExtraction.

Lemma extractField_eq (row extractedData : object) (field : string) :
  field <> "" ->
  extractField row extractedData field = set extractedData field (lookupField row field).
Proof.
  intro Hfield. unfold extractField, lookupField, find.
  change (fun key : string => toLowerCase key =? toLowerCase field) with (matchesField field).
  destruct (List.find (matchesField field) (Object_keys row)) as [k|] eqn:Hfind.
  - rewrite (find_match_truthy field _ _ Hfield Hfind). reflexivity.
  - reflexivity.
Qed.

(** The shape of every extracted record. *)
Lemma extractRow_eq (file : File) (i : nat) (row : object) :
  extractRow file i row =
  [ ("Type", lookupField row "Type");
    ("Display Name", lookupField row "Display Name");
    ("Name", lookupField row "Name");
    ("Domain", lookupField row "Domain");
    ("__source_file", VStr (name file));
    ("__file_index", VNum (Z.of_nat i)) ].
Proof.
  unfold extractRow, requiredFields. simpl fold_left.
  rewrite !extractField_eq by discriminate.
  reflexivity.
Qed.

Lemma lookupField_extractRow (file : File) (i : nat) (row : object) (field : string) :
  In field requiredFields ->
  lookupField (extractRow file i row) field = lookupField row field.
Proof.
  intro Hin. rewrite extractRow_eq.
  unfold requiredFields in Hin. simpl in Hin.
  destruct Hin as [<- | [<- | [<- | [<- | []]]]]; reflexivity.
Qed.

End FieldExtraction.

(* ================================================================== *)
(** ** The duplicate detector *)
(* ================================================================== *)

Section Grouping.

Lemma get_set_other (o : object) (k k' : string) (v : value) :
  k <> k' -> get (set o k v) k' = get o k'.
Proof.
  intro Hne. induction o as [|[k0 v0] o IH]; simpl.
  - rewrite eqb_false_of_neq by exact Hne. reflexivity.
  - destruct (k0 =? k) eqn:E0; simpl.
    + apply String.eqb_eq in E0. subst k0.
      rewrite eqb_false_of_neq by exact Hne. reflexivity.
    + destruct (k0 =? k'); [reflexivity | exact IH].
Qed.

Lemma withIndex_name (i : nat) (record : object) :
  get (withIndex i record) nameField = get record nameField.
Proof. unfold withIndex. apply get_set_other. discriminate. Qed.

Lemma groupingKey_Some (v : value) (k : string) :
  groupingKey v = Some k ->
  truthy v = true /\ trim (ToString v) <> "" /\ k = toLowerCase (trim (ToString v)).
Proof.
  unfold groupingKey. intro H.
  destruct (truthy v); simpl in H; [|discriminate H].
  destruct (trim (ToString v) =? "") eqn:E; simpl in H; [discriminate H|].
  injection H as <-. apply String.eqb_neq in E.
  rewrite trim_toLowerCase. auto.
Qed.

Lemma groupRecord_eq (nameMap : Map (list object)) (record : object) (index : nat) :
  groupRecord nameMap record index =
  match groupingKey (get record nameField) with
  | Some k =>
      Map_push (if negb (Map_has nameMap k) then Map_set nameMap k [] else nameMap)
               k (withIndex index record)
  | None => nameMap
  end.
Proof.
  unfold groupRecord, groupingKey, withIndex.
  destruct (truthy (get record nameField) && negb (trim (ToString (get record nameField)) =? ""));
    reflexivity.
Qed.

(** *** The loop as a fold over the indexed list *)

Lemma forEach_indexedFrom (data : list object) :
  forall i nameMap,
    forEach groupRecord data i nameMap = fold_left fileEntry (indexedFrom i data) nameMap.
Proof.
  induction data as [|record data IH]; intros i nameMap; simpl; [reflexivity|].
  apply IH.
Qed.

Lemma indexedFrom_app (l1 l2 : list object) :
  forall i, indexedFrom i (l1 ++ l2) = indexedFrom i l1 ++ indexedFrom (i + List.length l1) l2.
Proof.
  induction l1 as [|x l1 IH]; intro i; simpl.
  - rewrite Nat.add_0_r. reflexivity.
  - rewrite IH. replace (i + S (List.length l1)) with (S i + List.length l1) by lia.
    reflexivity.
Qed.

Lemma In_indexedFrom (data : list object) :
  forall j i record,
    In (i, record) (indexedFrom j data) <->
    j <= i /\ nth_error data (i - j) = Some record.
Proof.
  induction data as [|x data IH]; intros j i record; simpl.
  - split; [contradiction|]. intros [_ H]. destruct (i - j); discriminate H.
  - rewrite IH. split.
    + intros [H | [Hle Hnth]].
      * injection H as -> ->. split; [lia|]. rewrite Nat.sub_diag. reflexivity.
      * split; [lia|]. replace (i - j) with (S (i - S j)) by lia. exact Hnth.
    + intros [Hle Hnth]. destruct (i - j) as [|n] eqn:E.
      * left. simpl in Hnth. injection Hnth as ->. f_equal. lia.
      * right. split; [lia|]. replace (i - S j) with n by lia. exact Hnth.
Qed.

(** *** Keys and members *)

Lemma keysOf_app (l1 l2 : list (nat * object)) :
  keysOf (l1 ++ l2) = keysOf l1 ++ keysOf l2.
Proof.
  induction l1 as [|e l1 IH]; simpl; [reflexivity|].
  destruct (groupingKey (get (snd e) nameField)); rewrite IH; reflexivity.
Qed.

Lemma membersOf_app (k : string) (l1 l2 : list (nat * object)) :
  membersOf k (l1 ++ l2) = membersOf k l1 ++ membersOf k l2.
Proof. unfold membersOf. rewrite filter_app, map_app. reflexivity. Qed.

Lemma In_keysOf (k : string) (items : list (nat * object)) :
  In k (keysOf items) <-> exists e, In e items /\ hasKey k e = true.
Proof.
  unfold hasKey. induction items as [|e items IH]; simpl.
  - split; [contradiction | intros [e [[] _]]].
  - destruct (groupingKey (get (snd e) nameField)) as [k'|] eqn:E; simpl; rewrite IH.
    + split.
      * intros [-> | [e' [Hin Hk]]].
        -- exists e. split; [left; reflexivity|]. rewrite E. apply String.eqb_refl.
        -- exists e'. split; [right; exact Hin | exact Hk].
      * intros [e' [[<- | Hin] Hk]].
        -- rewrite E in Hk. left. apply String.eqb_eq. exact Hk.
        -- right. exists e'. split; assumption.
    + split.
      * intros [e' [Hin Hk]]. exists e'. split; [right; exact Hin | exact Hk].
      * intros [e' [[<- | Hin] Hk]].
        -- rewrite E in Hk. discriminate Hk.
        -- exists e'. split; assumption.
Qed.

Lemma membersOf_absent (k : string) (items : list (nat * object)) :
  ~ In k (keysOf items) -> membersOf k items = [].
Proof.
  intro Hnot. unfold membersOf.
  replace (filter (hasKey k) items) with (@nil (nat * object)); [reflexivity|].
  symmetry. induction items as [|e items IH]; simpl; [reflexivity|].
  destruct (hasKey k e) eqn:E.
  - exfalso. apply Hnot. apply In_keysOf. exists e. split; [left; reflexivity | exact E].
  - apply IH. intro Hin. apply Hnot. apply In_keysOf.
    apply In_keysOf in Hin. destruct Hin as [e' [Hin Hk]].
    exists e'. split; [right; exact Hin | exact Hk].
Qed.

Lemma In_membersOf (k : string) (data : list object) (m : object) :
  In m (membersOf k (indexedFrom 0 data)) ->
  exists i record,
    nth_error data i = Some record /\
    m = withIndex i record /\
    groupingKey (get record nameField) = Some k.
Proof.
  unfold membersOf. intro H. apply in_map_iff in H.
  destruct H as [[i record] [<- Hin]]. apply filter_In in Hin.
  destruct Hin as [Hin Hk]. apply In_indexedFrom in Hin.
  destruct Hin as [_ Hnth]. rewrite Nat.sub_0_r in Hnth.
  exists i, record. simpl. repeat split; [exact Hnth|].
  unfold hasKey in Hk. simpl in Hk.
  destruct (groupingKey (get record nameField)) as [k'|]; [|discriminate Hk].
  apply String.eqb_eq in Hk. subst k'. reflexivity.
Qed.

(** *** First-seen order *)

Lemma firstSeen_snoc (keys : list string) (k : string) :
  firstSeen (keys ++ [k]) =
  if existsb (fun k' => k' =? k) keys then firstSeen keys else firstSeen keys ++ [k].
Proof.
  induction keys as [|a keys IH]; simpl; [reflexivity|].
  rewrite IH. destruct (existsb (fun k' => k' =? k) keys) eqn:E.
  - rewrite orb_true_r. reflexivity.
  - rewrite orb_false_r, filter_app. simpl.
    rewrite (String.eqb_sym k a). destruct (a =? k); simpl.
    + rewrite app_nil_r. reflexivity.
    + reflexivity.
Qed.

Lemma In_firstSeen (keys : list string) (k : string) :
  In k (firstSeen keys) <-> In k keys.
Proof.
  induction keys as [|a keys IH]; simpl; [tauto|].
  rewrite filter_In, IH, negb_true_iff, String.eqb_neq.
  destruct (String.eqb_spec a k); split; intro H; intuition congruence.
Qed.

Lemma NoDup_firstSeen (keys : list string) : NoDup (firstSeen keys).
Proof.
  induction keys as [|a keys IH]; simpl; constructor.
  - rewrite filter_In, String.eqb_refl. simpl. intros [_ H]. discriminate H.
  - apply NoDup_filter. exact IH.
Qed.

Lemma existsb_eqb_In (keys : list string) (k : string) :
  existsb (fun k' => k' =? k) keys = true <-> In k keys.
Proof.
  rewrite existsb_exists. split.
  - intros [k' [Hin Heq]]. apply String.eqb_eq in Heq. subst k'. exact Hin.
  - intro Hin. exists k. split; [exact Hin | apply String.eqb_refl].
Qed.

(** *** The map operations on a table with distinct keys *)

Section Table.

Variable V : Type.
Variables F G : string -> list V.
Variable k : string.
Variable x : V.
Hypothesis G_at : G k = F k ++ [x].
Hypothesis G_off : forall k', k' <> k -> G k' = F k'.

Lemma Map_has_table (keys : list string) :
  Map_has (map (fun k' => (k', F k')) keys) k = existsb (fun k' => k' =? k) keys.
Proof.
  unfold Map_has. induction keys as [|a keys IH]; simpl; [reflexivity|].
  rewrite IH. reflexivity.
Qed.

Lemma table_off (keys : list string) :
  ~ In k keys ->
  map (fun k' => (k', F k')) keys = map (fun k' => (k', G k')) keys.
Proof.
  intro Hnot. apply map_ext_in. intros a Ha. rewrite G_off; [reflexivity|].
  intros ->. contradiction.
Qed.

Lemma Map_push_present (keys : list string) :
  NoDup keys -> In k keys ->
  Map_push (map (fun k' => (k', F k')) keys) k x = map (fun k' => (k', G k')) keys.
Proof.
  induction keys as [|a keys IH]; intros Hnd Hin; simpl; [contradiction|].
  inversion Hnd as [|a' keys' Hnotin Hnd']; subst.
  destruct (String.eqb_spec a k) as [-> | Hne].
  - rewrite G_at. f_equal. apply table_off. exact Hnotin.
  - rewrite (G_off a Hne). f_equal. apply IH; [exact Hnd'|].
    destruct Hin as [-> | Hin]; [contradiction | exact Hin].
Qed.

Lemma Map_set_absent (m : Map (list V)) (v : list V) :
  Map_has m k = false -> Map_set m k v = m ++ [(k, v)].
Proof.
  unfold Map_has. induction m as [|[a xs] m IH]; simpl; intro H; [reflexivity|].
  apply orb_false_iff in H. destruct H as [Ha Hm].
  rewrite Ha. f_equal. apply IH. exact Hm.
Qed.

Lemma Map_push_last (m : Map (list V)) (xs : list V) :
  Map_has m k = false -> Map_push (m ++ [(k, xs)]) k x = m ++ [(k, xs ++ [x])].
Proof.
  unfold Map_has. induction m as [|[a ys] m IH]; simpl; intro H.
  - rewrite String.eqb_refl. reflexivity.
  - apply orb_false_iff in H. destruct H as [Ha Hm].
    rewrite Ha. f_equal. apply IH. exact Hm.
Qed.

End Table.

(** Filing one more record keeps the table in its first-seen shape. *)
Lemma fileEntry_groupsTable (items : list (nat * object)) (entry : nat * object) :
  fileEntry (groupsTable items) entry = groupsTable (items ++ [entry]).
Proof.
  unfold fileEntry. rewrite groupRecord_eq. unfold groupsTable.
  rewrite keysOf_app. simpl keysOf.
  destruct (groupingKey (get (snd entry) nameField)) as [k|] eqn:Hkey.
  - assert (Hat : membersOf k (items ++ [entry]) =
                  membersOf k items ++ [withIndex (fst entry) (snd entry)]).
    { rewrite membersOf_app. f_equal. unfold membersOf, hasKey. simpl.
      rewrite Hkey, String.eqb_refl. reflexivity. }
    assert (Hoff : forall k', k' <> k ->
                     membersOf k' (items ++ [entry]) = membersOf k' items).
    { intros k' Hne. rewrite membersOf_app. unfold membersOf at 2. unfold hasKey. simpl.
      rewrite Hkey. rewrite (eqb_false_of_neq k k') by congruence.
      simpl. apply app_nil_r. }
    rewrite firstSeen_snoc, Map_has_table.
    destruct (existsb (fun k' => k' =? k) (firstSeen (keysOf items))) eqn:Hseen.
    + assert (Hin : In k (keysOf items)).
      { apply In_firstSeen. apply existsb_eqb_In. exact Hseen. }
      replace (existsb (fun k' => k' =? k) (keysOf items)) with true
        by (symmetry; apply existsb_eqb_In; exact Hin).
      simpl negb. cbv iota.
      apply Map_push_present; auto using NoDup_firstSeen.
      apply In_firstSeen. exact Hin.
    + assert (Hnot : ~ In k (keysOf items)).
      { intro Hin. apply In_firstSeen in Hin. apply existsb_eqb_In in Hin. congruence. }
      replace (existsb (fun k' => k' =? k) (keysOf items)) with false.
      2:{ symmetry. apply not_true_iff_false. intro H. apply Hnot. apply existsb_eqb_In. exact H. }
      simpl negb. cbv iota.
      rewrite Map_set_absent by (rewrite Map_has_table; exact Hseen).
      rewrite Map_push_last by (rewrite Map_has_table; exact Hseen).
      rewrite map_app. simpl. rewrite Hat, (membersOf_absent k items Hnot). simpl.
      f_equal. apply table_off with (k := k); [exact Hoff|].
      intro Hin. apply Hnot. apply In_firstSeen. exact Hin.
  - rewrite app_nil_r. apply map_ext. intro k.
    rewrite membersOf_app. unfold membersOf at 3. unfold hasKey. simpl.
    rewrite Hkey. simpl. rewrite app_nil_r. reflexivity.
Qed.

Lemma fold_fileEntry (items : list (nat * object)) :
  fold_left fileEntry items [] = groupsTable items.
Proof.
  induction items as [|entry items IH] using rev_ind; [reflexivity|].
  rewrite fold_left_app. simpl. rewrite IH. apply fileEntry_groupsTable.
Qed.

(** *** Emission *)

Lemma emitGroup_eq (acc : list DuplicateGroup) (entry : string * list object) :
  emitGroup acc entry =
  acc ++ (if (1 <? List.length (snd entry))%nat then [groupOf (fst entry) (snd entry)] else []).
Proof.
  destruct entry as [k members]. unfold emitGroup, groupOf. simpl.
  destruct (1 <? List.length members)%nat; [reflexivity | rewrite app_nil_r; reflexivity].
Qed.

Lemma fold_emitGroup (m : Map (list object)) :
  forall acc,
    fold_left emitGroup m acc =
    acc ++ map (fun e => groupOf (fst e) (snd e))
               (filter (fun e => (1 <? List.length (snd e))%nat) m).
Proof.
  induction m as [|e m IH]; intro acc; simpl.
  - rewrite app_nil_r. reflexivity.
  - rewrite IH, emitGroup_eq.
    destruct (1 <? List.length (snd e))%nat; simpl.
    + rewrite <- app_assoc. reflexivity.
    + rewrite app_nil_r. reflexivity.
Qed.

Lemma filter_map_comm (A B : Type) (f : A -> B) (p : B -> bool) (l : list A) :
  filter p (map f l) = map f (filter (fun a => p (f a)) l).
Proof.
  induction l as [|a l IH]; simpl; [reflexivity|].
  rewrite IH. destruct (p (f a)); reflexivity.
Qed.

Lemma keysOf_no_truthy (data : list object) :
  existsb (fun record => truthy (get record nameField)) data = false ->
  forall i, keysOf (indexedFrom i data) = [].
Proof.
  induction data as [|record data IH]; simpl; intros H i; [reflexivity|].
  apply orb_false_iff in H. destruct H as [Hr Hd].
  unfold groupingKey. rewrite Hr. simpl. apply IH. exact Hd.
Qed.

(** [findDuplicates] in closed form: the keys with at least two members,
    in first-seen order, each with its members in list order. *)
Lemma findDuplicates_eq (data : list object) :
  findDuplicates data =
  map (fun k => groupOf k (membersOf k (indexedFrom 0 data)))
      (filter (fun k => (1 <? List.length (membersOf k (indexedFrom 0 data)))%nat)
              (firstSeen (keysOf (indexedFrom 0 data)))).
Proof.
  unfold findDuplicates.
  destruct (existsb (fun record => truthy (get record nameField)) data) eqn:E; simpl.
  - rewrite forEach_indexedFrom, fold_fileEntry, fold_emitGroup. simpl.
    unfold groupsTable. rewrite filter_map_comm, map_map. reflexivity.
  - rewrite (keysOf_no_truthy data E 0). reflexivity.
Qed.

Lemma In_findDuplicates (data : list object) (g : DuplicateGroup) :
  In g (findDuplicates data) ->
  g = groupOf (duplicateValue g) (membersOf (duplicateValue g) (indexedFrom 0 data)) /\
  2 <= List.length (records g) /\
  In (duplicateValue g) (keysOf (indexedFrom 0 data)).
Proof.
  rewrite findDuplicates_eq. intro H. apply in_map_iff in H.
  destruct H as [k [<- Hin]]. apply filter_In in Hin. destruct Hin as [Hin Hlen].
  apply Nat.ltb_lt in Hlen. rewrite In_firstSeen in Hin. simpl.
  repeat split; [lia | exact Hin].
Qed.

(** Every member of an emitted group is the indexed copy of a record of
    the list that was filed under the group's key. *)
Lemma member_origin (data : list object) (g : DuplicateGroup) (m : object) :
  In g (findDuplicates data) -> In m (records g) ->
  exists i record,
    nth_error data i = Some record /\
    m = withIndex i record /\
    groupingKey (get record nameField) = Some (duplicateValue g).
Proof.
  intros Hg Hm. apply In_findDuplicates in Hg. destruct Hg as [Hg _].
  rewrite Hg in Hm. simpl in Hm. apply In_membersOf. exact Hm.
Qed.

End Grouping.

(* ================================================================== *)
(** ** Properties of the [complete] callback *)
(* ================================================================== *)

Import Samples.

(** C3, as stated, fails: a table can have the discriminator column in its
    column list and a first data row that stops before it; no discriminator
    is then found among the keys of that row, every row is retained, and a
    row of another kind is among them. *)
Lemma short_first_row_keeps_other_kinds :
  ~ (forall (result : ParseResult) (c : string),
       rowKeysFromHeader result ->
       In c (columns_of result) -> toLowerCase c = "type" ->
       forall row,
         In row (retainedRows result) <->
         In row (data result) /\ toLowerCase (ToString (get row c)) = "user").
Proof.
  intro H.
  assert (Hrows : rowKeysFromHeader shortFirstRow).
  { intros row key Hrow Hkey. left. simpl in Hrow.
    destruct Hrow as [<- | [<- | []]]; simpl in Hkey |- *; tauto. }
  destruct (H shortFirstRow "Type" Hrows (or_intror (or_introl eq_refl)) eq_refl
              [("Name", VStr "staff"); ("Type", VStr "Group")]) as [Hkept _].
  assert (Hin : In [("Name", VStr "staff"); ("Type", VStr "Group")]
                   (retainedRows shortFirstRow)).
  { right. left. reflexivity. }
  destruct (Hkept Hin) as [_ Huser]. discriminate Huser.
Qed.

(** C3, amended.  In a table where a discriminator is found among the keys
    of the first data row (under the key [k]), the rows that pass the
    filter are exactly the rows whose value under [k], coerced to string
    and lowercased, is ["user"]; they stay in the order of the table, and
    they are the rows that are extracted and counted. *)
Theorem type_filter_keeps_users
  (file : File) (i : nat) (result : ParseResult) (k : string) :
  typeField result = VStr k ->
  retainedRows result =
    filter (fun row => toLowerCase (ToString (get row k)) =? "user") (data result)
  /\ (forall row,
        In row (retainedRows result) <->
        In row (data result) /\ toLowerCase (ToString (get row k)) = "user")
  /\ filteredData file i result = map (extractRow file i) (retainedRows result)
  /\ userRowCount (fileSummary file i result) = List.length (retainedRows result).
Proof.
  intro Hfound. destruct (typeField_found result k Hfound) as [_ [_ Ht]].
  assert (Heq : retainedRows result =
                filter (fun row => toLowerCase (ToString (get row k)) =? "user") (data result)).
  { unfold retainedRows. rewrite Hfound. apply filter_ext. intro row.
    apply keepRow_found. rewrite <- Hfound. exact Ht. }
  split; [exact Heq|]. split; [|split].
  - intro row. rewrite Heq, filter_In, String.eqb_eq. reflexivity.
  - reflexivity.
  - simpl. unfold filteredData. apply length_map.
Qed.

Lemma type_filter_keeps_users_witness :
  typeField mixedKinds = VStr "TYPE" /\
  retainedRows mixedKinds =
    filter (fun row => toLowerCase (ToString (get row "TYPE")) =? "user") (data mixedKinds).
Proof.
  split; [reflexivity|].
  apply (type_filter_keeps_users {| name := "mixed.csv" |} 0 mixedKinds "TYPE").
  reflexivity.
Defined.

(** C4.  A table whose column list has no discriminator column keeps every
    row: the retained rows are the rows of the table, the two counts of the
    summary agree and [hasTypeField] is [false]. *)
Theorem no_type_column_keeps_all_rows (file : File) (i : nat) (result : ParseResult) :
  rowKeysFromHeader result ->
  (forall c, In c (columns_of result) -> toLowerCase c <> "type") ->
  retainedRows result = data result
  /\ userRowCount (fileSummary file i result) = totalRowCount (fileSummary file i result)
  /\ hasTypeField (fileSummary file i result) = false.
Proof.
  intros Hrows Hcols.
  pose proof (typeField_absent result (header_without_type result Hrows Hcols)) as Habsent.
  pose proof (retainedRows_no_typeField result Habsent) as Hall.
  split; [exact Hall|]. split.
  - simpl. unfold filteredData. rewrite length_map, Hall. reflexivity.
  - simpl. rewrite Habsent. reflexivity.
Qed.

Lemma no_type_column_keeps_all_rows_witness :
  userRowCount (fileSummary {| name := "plain.csv" |} 0 noTypeColumn) = 3
  /\ hasTypeField (fileSummary {| name := "plain.csv" |} 0 noTypeColumn) = false.
Proof.
  assert (Hrows : rowKeysFromHeader noTypeColumn).
  { intros row key Hrow Hkey. left. simpl in Hrow.
    destruct Hrow as [<- | [<- | [<- | []]]]; exact Hkey. }
  assert (Hcols : forall c, In c (columns_of noTypeColumn) -> toLowerCase c <> "type").
  { intros c Hc. simpl in Hc. destruct Hc as [<- | [<- | []]]; discriminate. }
  destruct (no_type_column_keeps_all_rows {| name := "plain.csv" |} 0 noTypeColumn Hrows Hcols)
    as [_ [Hcount Hflag]].
  split; [rewrite Hcount; reflexivity | exact Hflag].
Defined.


(** C9.  Extracting an extracted record again gives the same value for each
    of the four target fields, whatever file and index the second
    extraction runs under; under the same file and index the record is a
    fixed point of the extraction. *)
Theorem extraction_idempotent (file file' : File) (i i' : nat) (row : object) :
  Forall (fun field =>
            get (extractRow file' i' (extractRow file i row)) field =
            get (extractRow file i row) field)
         requiredFields
  /\ extractRow file i (extractRow file i row) = extractRow file i row.
Proof.
  split.
  - rewrite (extractRow_eq file' i' (extractRow file i row)).
    rewrite !lookupField_extractRow by (unfold requiredFields; simpl; tauto).
    rewrite extractRow_eq. unfold requiredFields. repeat constructor.
  - rewrite (extractRow_eq file i (extractRow file i row)).
    rewrite !lookupField_extractRow by (unfold requiredFields; simpl; tauto).
    symmetry. apply extractRow_eq.
Qed.

(** The found fields of a summary, as the code computes them. *)
Lemma In_availableFields (file : File) (i : nat) (result : ParseResult) (field : string) :
  In field (availableFields (fileSummary file i result)) <->
  In field requiredFields /\
  exists key, In key (firstRowKeys result) /\ matchesField field key = true.
Proof.
  unfold fileSummary. cbn [availableFields].
  rewrite filter_In, existsb_exists. reflexivity.
Qed.

(** C6, as stated, fails: a file with a header line and no data row has
    [Type] in its raw column list and yet no found field. *)
Lemma header_only_table_finds_nothing :
  ~ (forall (file : File) (i : nat) (result : ParseResult) (field : string),
       In field (availableFields (fileSummary file i result)) <->
       In field requiredFields /\
       exists c, In c (columns (fileSummary file i result)) /\ matchesField field c = true).
Proof.
  intro H.
  destruct (H {| name := "empty.csv" |} 0 headerOnly "Type") as [_ Hback].
  assert (Hfound : In "Type" (availableFields (fileSummary {| name := "empty.csv" |} 0 headerOnly))).
  { apply Hback. split.
    - left. reflexivity.
    - exists "Type". split; [left; reflexivity | reflexivity]. }
  exact Hfound.
Qed.

(** C6, amended.  The found fields are exactly the target fields that some
    key of the table's first data row matches case-insensitively (none when
    the table has no data row); they depend on the keys only, not on any
    value; the missing fields are exactly the other target fields. *)
Theorem found_fields_from_first_row (file : File) (i : nat) (result : ParseResult) :
  (forall field,
     In field (availableFields (fileSummary file i result)) <->
     In field requiredFields /\
     exists key, In key (firstRowKeys result) /\ matchesField field key = true)
  /\ (forall field,
     In field (missingFields (fileSummary file i result)) <->
     In field requiredFields /\ ~ In field (availableFields (fileSummary file i result)))
  /\ (forall file' i' result',
     firstRowKeys result' = firstRowKeys result ->
     availableFields (fileSummary file' i' result') = availableFields (fileSummary file i result)).
Proof.
  split; [|split].
  - intro field. apply In_availableFields.
  - intro field.
    change (missingFields (fileSummary file i result))
      with (filter (fun f => negb (includes (availableFields (fileSummary file i result)) f))
                   requiredFields).
    rewrite filter_In, negb_true_iff. unfold includes.
    rewrite <- not_true_iff_false, existsb_eqb_In. reflexivity.
  - intros file' i' result' Hkeys. unfold fileSummary. cbn [availableFields].
    rewrite Hkeys. reflexivity.
Qed.

Lemma found_fields_from_first_row_witness :
  In "Type" (availableFields (fileSummary {| name := "mixed.csv" |} 0 mixedKinds))
  /\ In "Domain" (missingFields (fileSummary {| name := "mixed.csv" |} 0 mixedKinds)).
Proof.
  destruct (found_fields_from_first_row {| name := "mixed.csv" |} 0 mixedKinds)
    as [Hfound [Hmissing _]].
  split.
  - apply Hfound. split; [simpl; tauto|].
    exists "TYPE". split; [left; reflexivity | reflexivity].
  - apply Hmissing. split; [simpl; tauto|].
    simpl. intros [H | [H | []]]; discriminate H.
Defined.

(* ================================================================== *)
(** ** Properties of the duplicate detector and of the run summary *)
(* ================================================================== *)

Section Summary.

Lemma truthy_not_empty (v : value) :
  truthy v = true -> spec_emptyValue v = false.
Proof.
  destruct v; simpl; intro H; try reflexivity; try discriminate H.
  apply negb_true_iff. exact H.
Qed.

Lemma empty_not_truthy (v : value) :
  spec_emptyValue v = true -> truthy v = false.
Proof.
  destruct v; simpl; intro H; try reflexivity; try discriminate H.
  rewrite H. reflexivity.
Qed.

Lemma Map_has_set (V : Type) (m : Map V) (k : string) (v : V) :
  Map_has (Map_set m k v) k = true.
Proof.
  unfold Map_has. induction m as [|[a w] m IH]; simpl.
  - rewrite String.eqb_refl. reflexivity.
  - destruct (a =? k) eqn:E; simpl; rewrite ?E; simpl; [reflexivity | exact IH].
Qed.

Lemma Map_push_In (V : Type) (m : Map (list V)) (k : string) (x : V) :
  Map_has m k = true ->
  exists xs, In (k, xs ++ [x]) (Map_push m k x).
Proof.
  unfold Map_has. induction m as [|[a ys] m IH]; simpl; intro H; [discriminate H|].
  destruct (String.eqb_spec a k) as [-> | Hne].
  - exists ys. left. reflexivity.
  - simpl in H. destruct (IH H) as [xs Hin]. exists xs. right. exact Hin.
Qed.

Lemma processFiles_Some (files : list (File * ParseOutcome)) (out : Output) :
  processFiles files = Some out ->
  exists allUsers fileResults,
    processLoop files 0 ([], []) = Some (allUsers, fileResults) /\
    out = summarise (List.length files) (allUsers, fileResults).
Proof.
  unfold processFiles. destruct (List.length files =? 0)%nat; [discriminate|].
  destruct (processLoop files 0 ([], [])) as [[allUsers fileResults]|]; [|discriminate].
  intro H. injection H as <-. exists allUsers, fileResults. split; reflexivity.
Qed.

Lemma fold_left_sum (A : Type) (f : A -> nat) (l : list A) :
  forall start,
    fold_left (fun sum x => sum + f x) l start = start + list_sum (map f l).
Proof.
  induction l as [|x l IH]; intro start; simpl; [lia|].
  rewrite IH. lia.
Qed.

Lemma nameFieldPresent_true (allUsers : list object) :
  nameFieldPresent allUsers = true <->
  exists record, In record allUsers /\ truthy (get record nameField) = true.
Proof.
  unfold nameFieldPresent. rewrite andb_true_iff, existsb_exists. split.
  - intros [_ H]. exact H.
  - intros [record [Hin Ht]]. split; [|exists record; auto].
    destruct allUsers; [contradiction | reflexivity].
Qed.

Lemma no_truthy_name (data : list object) :
  (forall record, In record data -> truthy (get record nameField) = false) ->
  existsb (fun record => truthy (get record nameField)) data = false.
Proof.
  intro H. apply not_true_iff_false. intro Hex.
  apply existsb_exists in Hex. destruct Hex as [record [Hin Ht]].
  rewrite (H record Hin) in Ht. discriminate Ht.
Qed.

End Summary.

(** C1, as stated, fails: the record extracted from a row whose identity
    cell is the number 0 has an identity value that is neither empty nor
    whitespace-only, and [groupRecord] files it under no key. *)
Lemma zero_name_is_not_keyed :
  ~ (forall (nameMap : Map (list object)) (record : object) (index : nat),
       spec_emptyValue (get record nameField) = false ->
       spec_whitespaceOnly (get record nameField) = false ->
       exists members,
         In (spec_normalizedKey (get record nameField), members)
            (groupRecord nameMap record index)).
Proof.
  intro H.
  destruct (H [] (extractRow {| name := "zero.csv" |} 0 zeroNamed) 0 eq_refl eq_refl)
    as [members Hin].
  exact Hin.
Qed.

(** C7.  When a run is published and no aggregated record has a non-empty
    identity value, the detector returns the empty list of groups, the run
    publishes no group and the summary's [hasNameField] is [false]. *)
Theorem no_identity_disables_detection
  (files : list (File * ParseOutcome)) (out : Output) :
  processFiles files = Some out ->
  (forall record, In record (combinedData out) ->
                  spec_emptyValue (get record nameField) = true) ->
  findDuplicates (combinedData out) = []
  /\ duplicates out = []
  /\ hasNameField (results out) = false.
Proof.
  intros Hrun Hempty.
  destruct (processFiles_Some files out Hrun) as [allUsers [fileResults [_ ->]]].
  cbn [summarise combinedData duplicates results hasNameField] in *.
  assert (Hnone : existsb (fun record => truthy (get record nameField)) allUsers = false).
  { apply no_truthy_name. intros record Hin. apply empty_not_truthy. auto. }
  assert (Hdup : findDuplicates allUsers = []).
  { unfold findDuplicates. rewrite Hnone. reflexivity. }
  repeat split; try exact Hdup.
  unfold nameFieldPresent. fold nameField. rewrite Hnone. apply andb_false_r.
Qed.

Lemma no_identity_disables_detection_witness :
  exists out,
    processFiles [({| name := "anonymous.csv" |}, Complete noNameColumn)] = Some out
    /\ duplicates out = []
    /\ hasNameField (results out) = false.
Proof.
  eexists. split; [reflexivity|].
  apply (no_identity_disables_detection
           [({| name := "anonymous.csv" |}, Complete noNameColumn)] _ eq_refl).
  intros record Hin. simpl in Hin.
  destruct Hin as [<- | [<- | []]]; reflexivity.
Defined.

(** C8.  In every published summary, [duplicateCount] is the sum of the
    member counts of the published groups and [duplicateGroups] is their
    number; the published groups are those the detector finds in the
    published records. *)
Theorem summary_counts_groups (files : list (File * ParseOutcome)) (out : Output) :
  processFiles files = Some out ->
  duplicateCount (results out) =
    list_sum (map (fun g => List.length (records g)) (duplicates out))
  /\ duplicateGroups (results out) = List.length (duplicates out)
  /\ duplicates out = findDuplicates (combinedData out).
Proof.
  intro Hrun.
  destruct (processFiles_Some files out Hrun) as [allUsers [fileResults [_ ->]]].
  cbn [summarise combinedData duplicates results duplicateCount duplicateGroups].
  split; [|split; reflexivity].
  apply (fold_left_sum DuplicateGroup (fun g => List.length (records g))).
Qed.

Lemma summary_counts_groups_witness :
  exists out,
    processFiles twoFiles = Some out
    /\ duplicateCount (results out) = 2
    /\ duplicateGroups (results out) = 1.
Proof.
  eexists. split; [reflexivity|].
  destruct (summary_counts_groups twoFiles _ eq_refl) as [Hcount [Hgroups _]].
  split; [rewrite Hcount | rewrite Hgroups]; reflexivity.
Defined.

(** C10.  The number 0 and the boolean [false] have a textual form that is
    neither empty nor whitespace-only, and yet a record whose identity
    value is one of them is left out of the grouping: [groupRecord] leaves
    the map as it was and no member of an emitted group has that identity
    value.  Nor does such a record raise [hasNameField]: the flag of a
    published summary is [true] only when some other record has a truthy
    identity value, and it is [false] when every record is of that kind. *)
Theorem falsy_scalar_name_ignored (v : value) :
  v = VNum 0 \/ v = VBool false ->
  (spec_emptyValue v = false /\ spec_whitespaceOnly v = false)
  /\ (forall (nameMap : Map (list object)) (record : object) (index : nat),
        get record nameField = v -> groupRecord nameMap record index = nameMap)
  /\ (forall (data : list object) (g : DuplicateGroup) (m : object),
        In g (findDuplicates data) -> In m (records g) -> get m nameField <> v)
  /\ (forall (files : list (File * ParseOutcome)) (out : Output),
        processFiles files = Some out ->
        hasNameField (results out) = true ->
        exists record,
          In record (combinedData out) /\
          truthy (get record nameField) = true /\
          get record nameField <> v)
  /\ (forall (files : list (File * ParseOutcome)) (out : Output),
        processFiles files = Some out ->
        (forall record, In record (combinedData out) -> get record nameField = v) ->
        duplicates out = [] /\ hasNameField (results out) = false).
Proof.
  intro Hv.
  assert (Hfalsy : truthy v = false) by (destruct Hv as [-> | ->]; reflexivity).
  split; [destruct Hv as [-> | ->]; split; reflexivity|].
  split; [|split; [|split]].
  - intros nameMap record index Hname.
    rewrite groupRecord_eq, Hname. unfold groupingKey. rewrite Hfalsy. reflexivity.
  - intros data g m Hg Hm Hname.
    destruct (member_origin data g m Hg Hm) as [i [record [_ [-> Hkey]]]].
    rewrite withIndex_name in Hname. rewrite Hname in Hkey.
    apply groupingKey_Some in Hkey. destruct Hkey as [Ht _]. congruence.
  - intros files out Hrun Hflag.
    destruct (processFiles_Some files out Hrun) as [allUsers [fileResults [_ ->]]].
    cbn [summarise combinedData results hasNameField] in *.
    apply nameFieldPresent_true in Hflag. destruct Hflag as [record [Hin Ht]].
    exists record. split; [exact Hin|]. split; [exact Ht|]. congruence.
  - intros files out Hrun Hall.
    destruct (processFiles_Some files out Hrun) as [allUsers [fileResults [_ ->]]].
    cbn [summarise combinedData duplicates results hasNameField] in *.
    assert (Hnone : existsb (fun record => truthy (get record nameField)) allUsers = false).
    { apply no_truthy_name. intros record Hin. rewrite (Hall record Hin). exact Hfalsy. }
    split.
    + unfold findDuplicates. rewrite Hnone. reflexivity.
    + unfold nameFieldPresent. fold nameField. rewrite Hnone. apply andb_false_r.
Qed.

Lemma falsy_scalar_name_ignored_witness :
  ToString (VNum 0) = "0"
  /\ spec_whitespaceOnly (VNum 0) = false
  /\ exists out,
       processFiles [({| name := "zero.csv" |}, Complete zeroNames)] = Some out
       /\ duplicates out = []
       /\ hasNameField (results out) = false.
Proof.
  destruct (falsy_scalar_name_ignored (VNum 0) (or_introl eq_refl))
    as [[_ Hws] [_ [_ [_ Hrun]]]].
  split; [reflexivity|]. split; [exact Hws|].
  eexists. split; [reflexivity|].
  apply (Hrun [({| name := "zero.csv" |}, Complete zeroNames)] _ eq_refl).
  intros record Hin. simpl in Hin.
  destruct Hin as [<- | [<- | []]]; reflexivity.
Defined.

(* ================================================================== *)
(** ** The scenarios of the specification, run on the model *)
(* ================================================================== *)

(** Two files, one user under two spellings: two records, one group of two
    members, represented by the first spelling. *)
Example scenario_two_spellings :
  option_map (fun out => (List.length (combinedData out),
                          map (fun g => (duplicateValue g, originalName g,
                                         List.length (records g)))
                              (duplicates out)))
             (processFiles twoFiles)
  = Some (2, [("alice", VStr "Alice", 2)]).
Proof. reflexivity. Qed.

(** One row of another kind: nothing is retained, one row was read. *)
Example scenario_other_kind :
  option_map (fun out => (totalRecords (results out), totalOriginalRecords (results out)))
             (processFiles
                [({| name := "groups.csv" |},
                  Complete (table [[("Type", VStr "Group"); ("Name", VStr "staff")]]
                                  ["Type"; "Name"]))])
  = Some (0, 1).
Proof. reflexivity. Qed.

(** A file the parser gives up on leaves the run unpublished. *)
Example scenario_parser_error :
  processFiles [({| name := "one.csv" |}, Complete alice1);
                ({| name := "bad.csv" |}, Error "unreadable")] = None.
Proof. reflexivity. Qed.

(** Two rows named by the number 0 form no group; two rows named by the
    number 7 do, under the key ["7"]. *)
Example scenario_zero_names :
  findDuplicates (filteredData {| name := "zero.csv" |} 0 zeroNames) = []
  /\ map duplicateValue
         (findDuplicates [[("Name", VNum 7)]; [("Name", VNum 7)]]) = ["7"].
Proof. split; reflexivity. Qed.

(* ================================================================== *)
(** ** The batch loop *)
(* ================================================================== *)

Import MoreSamples.

Section Batch.

Lemma processLoop_completed (tables : list (File * ParseResult)) :
  forall i allUsers fileResults,
    processLoop (completed tables) i (allUsers, fileResults) =
    Some (allUsers ++ gather tables i, fileResults ++ summaries tables i).
Proof.
  induction tables as [|[file result] tables IH]; intros i allUsers fileResults; simpl.
  - rewrite !app_nil_r. reflexivity.
  - rewrite IH, <- !app_assoc. reflexivity.
Qed.

Lemma processLoop_Some (files : list (File * ParseOutcome)) :
  forall i acc acc',
    processLoop files i acc = Some acc' ->
    exists tables, files = completed tables.
Proof.
  induction files as [|[file [result | err]] files IH]; intros i acc acc' H; simpl in H.
  - exists []. reflexivity.
  - destruct (IH _ _ _ H) as [tables ->].
    exists ((file, result) :: tables). reflexivity.
  - discriminate H.
Qed.

Lemma processLoop_None (files : list (File * ParseOutcome)) :
  forall i acc,
    processLoop files i acc = None <->
    exists file err, In (file, Error err) files.
Proof.
  induction files as [|[file [result | err]] files IH]; intros i acc; simpl.
  - split; [discriminate | intros [file [err []]]].
  - rewrite IH. split.
    + intros [f [e Hin]]. exists f, e. right. exact Hin.
    + intros [f [e [Heq | Hin]]]; [discriminate Heq | exists f, e; exact Hin].
  - split; [|reflexivity]. intros _. exists file, err. left. reflexivity.
Qed.

(** A published run, in closed form. *)
Lemma processFiles_completed (files : list (File * ParseOutcome)) (out : Output) :
  processFiles files = Some out ->
  exists tables,
    files = completed tables /\
    out = summarise (List.length files) (gather tables 0, summaries tables 0).
Proof.
  intro Hrun. destruct (processFiles_Some files out Hrun) as [allUsers [fileResults [Hloop ->]]].
  destruct (processLoop_Some files _ _ _ Hloop) as [tables ->].
  rewrite processLoop_completed in Hloop. simpl in Hloop. injection Hloop as <- <-.
  exists tables. split; reflexivity.
Qed.

Lemma In_gather (tables : list (File * ParseResult)) (record : object) :
  forall i,
    In record (gather tables i) ->
    exists j file result row,
      nth_error tables j = Some (file, result) /\
      In row (retainedRows result) /\
      record = extractRow file (i + j) row.
Proof.
  induction tables as [|[file result] tables IH]; intros i Hin; simpl in Hin; [contradiction|].
  apply in_app_or in Hin. destruct Hin as [Hin | Hin].
  - unfold filteredData in Hin. apply in_map_iff in Hin. destruct Hin as [row [<- Hrow]].
    exists 0, file, result, row. rewrite Nat.add_0_r. auto.
  - destruct (IH (S i) Hin) as [j [f [r [row [Hnth [Hrow ->]]]]]].
    exists (S j), f, r, row. repeat split; [exact Hnth | exact Hrow |].
    f_equal. lia.
Qed.

Lemma length_gather (tables : list (File * ParseResult)) :
  forall i,
    List.length (gather tables i) = list_sum (map userRowCount (summaries tables i)).
Proof.
  induction tables as [|[file result] tables IH]; intro i; simpl; [reflexivity|].
  rewrite length_app, IH. reflexivity.
Qed.

Lemma length_summaries (tables : list (File * ParseResult)) :
  forall i, List.length (summaries tables i) = List.length tables.
Proof.
  induction tables as [|t tables IH]; intro i; simpl; [reflexivity|].
  rewrite IH. reflexivity.
Qed.

Lemma length_filter_le (A : Type) (p : A -> bool) (l : list A) :
  List.length (filter p l) <= List.length l.
Proof.
  induction l as [|x l IH]; simpl; [lia|].
  destruct (p x); simpl; lia.
Qed.

Lemma userRowCount_le (file : File) (i : nat) (result : ParseResult) :
  userRowCount (fileSummary file i result) <= totalRowCount (fileSummary file i result).
Proof.
  simpl. unfold filteredData, retainedRows. rewrite length_map. apply length_filter_le.
Qed.

Lemma sum_userRowCount_le (tables : list (File * ParseResult)) :
  forall i,
    list_sum (map userRowCount (summaries tables i)) <=
    list_sum (map totalRowCount (summaries tables i)).
Proof.
  induction tables as [|[file result] tables IH]; intro i; [reflexivity|].
  cbn [summaries map list_sum fold_right fst snd].
  pose proof (userRowCount_le file i result). pose proof (IH (S i)).
  change (fold_right Nat.add 0 (map userRowCount (summaries tables (S i))))
    with (list_sum (map userRowCount (summaries tables (S i)))).
  change (fold_right Nat.add 0 (map totalRowCount (summaries tables (S i))))
    with (list_sum (map totalRowCount (summaries tables (S i)))).
  lia.
Qed.

End Batch.

(** X1.  A run publishes nothing exactly when no file is selected or the
    parser gives up on one of the files. *)
Theorem unpublished_iff_empty_or_error (files : list (File * ParseOutcome)) :
  processFiles files = None <->
  files = [] \/ exists file err, In (file, Error err) files.
Proof.
  unfold processFiles. destruct files as [|f files].
  - simpl. split; [left; reflexivity | reflexivity].
  - cbn [List.length Nat.eqb].
    destruct (processLoop (f :: files) 0 ([], [])) as [acc|] eqn:Hloop.
    + split; [discriminate|]. intros [Hnil | Herr]; [discriminate Hnil|].
      apply (processLoop_None (f :: files) 0 ([], [])) in Herr. congruence.
    + split; [|reflexivity]. intros _. right.
      apply (processLoop_None (f :: files) 0 ([], [])). exact Hloop.
Qed.

(** X2.  A published run holds the extracted records of the files in file
    order, rows in row order within a file, each file extracted under its
    position in the upload; and one summary per file, in file order. *)
Theorem published_in_file_order (files : list (File * ParseOutcome)) (out : Output) :
  processFiles files = Some out ->
  exists tables,
    files = completed tables
    /\ combinedData out = gather tables 0
    /\ fileDetails (results out) = summaries tables 0
    /\ totalFiles (results out) = List.length (fileDetails (results out)).
Proof.
  intro Hrun. destruct (processFiles_completed files out Hrun) as [tables [-> ->]].
  exists tables. repeat split.
  cbn [summarise results totalFiles fileDetails].
  unfold completed. rewrite length_map, length_summaries. reflexivity.
Qed.

Lemma published_in_file_order_witness :
  exists out tables,
    processFiles twoFiles = Some out
    /\ twoFiles = completed tables
    /\ combinedData out = gather tables 0.
Proof.
  eexists.
  destruct (published_in_file_order twoFiles _ eq_refl) as [tables [Hfiles [Hdata _]]].
  exists tables. split; [reflexivity|]. split; [exact Hfiles | exact Hdata].
Defined.

(** X3.  In a published summary, [totalRecords] is the sum of the files'
    retained row counts, [totalOriginalRecords] the sum of their row counts,
    and the first never exceeds the second. *)
Theorem summary_totals (files : list (File * ParseOutcome)) (out : Output) :
  processFiles files = Some out ->
  totalRecords (results out) = list_sum (map userRowCount (fileDetails (results out)))
  /\ totalOriginalRecords (results out) =
     list_sum (map totalRowCount (fileDetails (results out)))
  /\ totalRecords (results out) <= totalOriginalRecords (results out).
Proof.
  intro Hrun. destruct (processFiles_completed files out Hrun) as [tables [-> ->]].
  cbn [summarise results totalRecords totalOriginalRecords fileDetails].
  rewrite (fold_left_sum FileSummary totalRowCount), length_gather. simpl.
  repeat split. apply sum_userRowCount_le.
Qed.

Lemma summary_totals_witness :
  exists out,
    processFiles [({| name := "mixed.csv" |}, Complete mixedKinds);
                  ({| name := "plain.csv" |}, Complete noTypeColumn)] = Some out
    /\ totalRecords (results out) = 5
    /\ totalOriginalRecords (results out) = 7.
Proof.
  eexists. split; [reflexivity|].
  destruct (summary_totals
              [({| name := "mixed.csv" |}, Complete mixedKinds);
               ({| name := "plain.csv" |}, Complete noTypeColumn)] _ eq_refl)
    as [Hkept [Hread _]].
  split; [rewrite Hkept | rewrite Hread]; reflexivity.
Defined.

(** X4.  Every record of a published run names the file it comes from: its
    [__file_index] is a position of the upload and its [__source_file] is
    the name of the file at that position. *)
Theorem record_provenance
  (files : list (File * ParseOutcome)) (out : Output) (record : object) :
  processFiles files = Some out ->
  In record (combinedData out) ->
  exists i file outcome,
    nth_error files i = Some (file, outcome)
    /\ get record "__file_index" = VNum (Z.of_nat i)
    /\ get record "__source_file" = VStr (name file).
Proof.
  intros Hrun Hin. destruct (processFiles_completed files out Hrun) as [tables [-> ->]].
  cbn [summarise combinedData] in Hin.
  destruct (In_gather tables record 0 Hin) as [j [file [result [row [Hnth [_ ->]]]]]].
  exists j, file, (Complete result). split.
  - unfold completed. rewrite nth_error_map, Hnth. reflexivity.
  - rewrite extractRow_eq. split; reflexivity.
Qed.

Lemma record_provenance_witness :
  exists i file outcome,
    nth_error twoFiles i = Some (file, outcome)
    /\ get (extractRow {| name := "two.csv" |} 1
                       [("Type", VStr "User"); ("Name", VStr "alice "); ("Domain", VStr "b.com")])
           "__file_index" = VNum (Z.of_nat i)
    /\ get (extractRow {| name := "two.csv" |} 1
                       [("Type", VStr "User"); ("Name", VStr "alice "); ("Domain", VStr "b.com")])
           "__source_file" = VStr (name file).
Proof.
  apply (record_provenance twoFiles _ _ eq_refl).
  simpl. right. left. reflexivity.
Defined.

(* ================================================================== *)
(** ** The per-file summary, the filter and the extraction, further *)
(* ================================================================== *)

Section PerFile.

Lemma typeField_truthy_iff (result : ParseResult) :
  truthy (typeField result) = true <->
  exists key, In key (firstRowKeys result) /\ matchesField "Type" key = true.
Proof.
  unfold typeField, find.
  change (fun key : string => toLowerCase key =? "type") with (matchesField "Type").
  destruct (List.find (matchesField "Type") (firstRowKeys result)) as [k|] eqn:Hfind.
  - rewrite (find_match_truthy "Type" _ _ ltac:(discriminate) Hfind).
    apply find_some in Hfind. split; [|reflexivity]. intros _. exists k. exact Hfind.
  - simpl. split; [discriminate|]. intros [key [Hin Hm]].
    rewrite (find_none _ _ Hfind key Hin) in Hm. discriminate Hm.
Qed.



(** Looking a field up goes down the row and stops at the first column
    whose name matches. *)
Lemma lookupField_cons (k : string) (v : value) (row : object) (field : string) :
  lookupField ((k, v) :: row) field =
  if matchesField field k then v else lookupField row field.
Proof.
  unfold lookupField. simpl.
  destruct (matchesField field k) eqn:Hk.
  - rewrite String.eqb_refl. reflexivity.
  - destruct (List.find (matchesField field) (Object_keys row)) as [k'|] eqn:Hfind;
      [|reflexivity].
    apply find_some in Hfind. destruct Hfind as [_ Hk'].
    rewrite eqb_false_of_neq; [reflexivity|].
    intros ->. rewrite Hk in Hk'. discriminate Hk'.
Qed.

Lemma lookupField_sameColumns (row row' : object) (field : string) :
  sameColumns row row' -> lookupField row field = lookupField row' field.
Proof.
  intro H. induction H as [|[k v] [k' v'] row row' [Hk Hv] _ IH]; [reflexivity|].
  simpl in Hk, Hv. subst v'. rewrite !lookupField_cons, IH.
  unfold matchesField. rewrite Hk. reflexivity.
Qed.

End PerFile.

(** X5.  A file never retains more rows than it holds; when its summary
    says that no discriminator was found, every row is retained. *)
Theorem retained_rows_bounded (file : File) (i : nat) (result : ParseResult) :
  userRowCount (fileSummary file i result) <= totalRowCount (fileSummary file i result)
  /\ (hasTypeField (fileSummary file i result) = false ->
      retainedRows result = data result
      /\ userRowCount (fileSummary file i result) = totalRowCount (fileSummary file i result)).
Proof.
  split; [apply userRowCount_le|].
  cbn [fileSummary hasTypeField userRowCount totalRowCount]. rewrite negb_involutive.
  intro Hfalsy.
  assert (Hall : retainedRows result = data result).
  { unfold retainedRows. apply filter_all. intros row _.
    unfold keepRow. rewrite Hfalsy. reflexivity. }
  split; [exact Hall|].
  unfold filteredData. rewrite length_map, Hall. reflexivity.
Qed.

Lemma retained_rows_bounded_witness :
  userRowCount (fileSummary {| name := "plain.csv" |} 0 noTypeColumn) = 3.
Proof.
  destruct (retained_rows_bounded {| name := "plain.csv" |} 0 noTypeColumn) as [_ Hall].
  destruct (Hall eq_refl) as [_ Hcount]. rewrite Hcount. reflexivity.
Defined.

(** X6.  The two reports of a summary on the discriminator agree:
    [hasTypeField] is [true] exactly when [Type] is among the found
    fields. *)
Theorem hasTypeField_iff_Type_found (file : File) (i : nat) (result : ParseResult) :
  hasTypeField (fileSummary file i result) = true <->
  In "Type" (availableFields (fileSummary file i result)).
Proof.
  rewrite In_availableFields.
  cbn [fileSummary hasTypeField]. rewrite negb_involutive, typeField_truthy_iff.
  split.
  - intro H. split; [left; reflexivity | exact H].
  - intros [_ H]. exact H.
Qed.



(** X8.  The letter case of the column names does not matter to the
    extraction: two rows with the same cells under column names that
    differ by case only give the same record. *)
Theorem extraction_ignores_column_case (file : File) (i : nat) (row row' : object) :
  sameColumns row row' ->
  extractRow file i row = extractRow file i row'.
Proof.
  intro H. rewrite !extractRow_eq.
  rewrite !(lookupField_sameColumns row row' _ H). reflexivity.
Qed.

Lemma extraction_ignores_column_case_witness :
  extractRow {| name := "a.csv" |} 0 lowerRow = extractRow {| name := "a.csv" |} 0 upperRow.
Proof.
  apply extraction_ignores_column_case.
  unfold sameColumns, lowerRow, upperRow. repeat constructor.
Defined.

(* ================================================================== *)
(** ** The duplicate detector, further *)
(* ================================================================== *)

Section Detector.

Lemma get_set_same (o : object) (k : string) (v : value) :
  get (set o k v) k = v.
Proof.
  induction o as [|[k0 v0] o IH]; simpl.
  - rewrite String.eqb_refl. reflexivity.
  - destruct (k0 =? k) eqn:E; simpl; rewrite E; [reflexivity | exact IH].
Qed.

Lemma withIndex_index (i : nat) (record : object) :
  get (withIndex i record) "__original_index" = VNum (Z.of_nat i).
Proof. apply get_set_same. Qed.

Lemma length_indexedFrom (data : list object) :
  forall i, List.length (indexedFrom i data) = List.length data.
Proof.
  induction data as [|record data IH]; intro i; simpl; [reflexivity|].
  rewrite IH. reflexivity.
Qed.

Lemma length_keysOf_le (items : list (nat * object)) :
  List.length (keysOf items) <= List.length items.
Proof.
  induction items as [|e items IH]; simpl; [lia|].
  destruct (groupingKey (get (snd e) nameField)); simpl; lia.
Qed.

(** A key has as many members as it has occurrences among the keys. *)
Lemma length_membersOf (k : string) (items : list (nat * object)) :
  List.length (membersOf k items) = count_occ string_dec (keysOf items) k.
Proof.
  unfold membersOf. rewrite length_map.
  induction items as [|e items IH]; simpl; [reflexivity|].
  unfold hasKey at 1.
  destruct (groupingKey (get (snd e) nameField)) as [k'|]; [|exact IH].
  simpl. destruct (string_dec k' k) as [-> | Hne].
  - rewrite String.eqb_refl. simpl. rewrite IH. reflexivity.
  - rewrite (eqb_false_of_neq _ _ Hne). exact IH.
Qed.

Lemma sum_indicator_le (a : string) (keys : list string) :
  NoDup keys ->
  list_sum (map (fun k => if string_dec a k then 1 else 0) keys) <= 1.
Proof.
  induction keys as [|k keys IH]; intro Hnd; simpl; [lia|].
  inversion Hnd as [|k' keys' Hnotin Hnd']; subst.
  destruct (string_dec a k) as [-> | Hne]; [|apply IH; exact Hnd'].
  assert (Hzero : list_sum (map (fun k0 => if string_dec k k0 then 1 else 0) keys) = 0).
  { clear IH Hnd Hnd'. induction keys as [|k1 keys IH]; simpl; [reflexivity|].
    destruct (string_dec k k1) as [-> | _].
    - exfalso. apply Hnotin. left. reflexivity.
    - apply IH. intro Hin. apply Hnotin. right. exact Hin. }
  change (fold_right Nat.add 0 (map (fun k0 => if string_dec k k0 then 1 else 0) keys))
    with (list_sum (map (fun k0 => if string_dec k k0 then 1 else 0) keys)).
  rewrite Hzero. lia.
Qed.

Lemma list_sum_map_add (A : Type) (f g : A -> nat) (l : list A) :
  list_sum (map (fun x => f x + g x) l) = list_sum (map f l) + list_sum (map g l).
Proof.
  induction l as [|x l IH]; simpl; [reflexivity|].
  change (fold_right Nat.add 0 (map (fun x0 => f x0 + g x0) l))
    with (list_sum (map (fun x0 => f x0 + g x0) l)).
  change (fold_right Nat.add 0 (map f l)) with (list_sum (map f l)).
  change (fold_right Nat.add 0 (map g l)) with (list_sum (map g l)).
  rewrite IH. lia.
Qed.

(** Distinct keys share no occurrence. *)
Lemma sum_count_occ_le (l keys : list string) :
  NoDup keys ->
  list_sum (map (count_occ string_dec l) keys) <= List.length l.
Proof.
  intro Hnd. induction l as [|a l IH]; simpl.
  - clear Hnd. induction keys as [|k keys IHk]; simpl; [lia | exact IHk].
  - rewrite (map_ext (fun k => if string_dec a k then S (count_occ string_dec l k)
                               else count_occ string_dec l k)
                     (fun k => (if string_dec a k then 1 else 0) + count_occ string_dec l k)).
    + rewrite list_sum_map_add. pose proof (sum_indicator_le a keys Hnd). lia.
    + intro k. destruct (string_dec a k); reflexivity.
Qed.

Lemma two_distinct_length (A : Type) (a b : A) (l : list A) :
  In a l -> In b l -> a <> b -> 2 <= List.length l.
Proof.
  intros Ha Hb Hne. destruct l as [|x [|y l]]; simpl in *.
  - contradiction.
  - destruct Ha as [<- | []]. destruct Hb as [<- | []]. congruence.
  - lia.
Qed.

(** *** The key is in normal form *)








End Detector.

(** X9.  The emitted groups have pairwise distinct keys and share no
    member: a record copy that sits in two groups sits in one and the same
    group. *)
Theorem groups_are_disjoint (data : list object) :
  NoDup (map duplicateValue (findDuplicates data))
  /\ (forall g1 g2 m,
        In g1 (findDuplicates data) -> In g2 (findDuplicates data) ->
        In m (records g1) -> In m (records g2) ->
        g1 = g2).
Proof.
  split.
  - rewrite findDuplicates_eq, map_map. simpl. rewrite map_id.
    apply NoDup_filter. apply NoDup_firstSeen.
  - intros g1 g2 m Hg1 Hg2 Hm1 Hm2.
    destruct (member_origin data g1 m Hg1 Hm1) as [i1 [r1 [Hnth1 [Heq1 Hkey1]]]].
    destruct (member_origin data g2 m Hg2 Hm2) as [i2 [r2 [Hnth2 [Heq2 Hkey2]]]].
    assert (Hi : i1 = i2).
    { pose proof (withIndex_index i1 r1) as H1. pose proof (withIndex_index i2 r2) as H2.
      rewrite <- Heq1 in H1. rewrite <- Heq2 in H2. rewrite H1 in H2.
      injection H2 as H2. apply Nat2Z.inj. exact H2. }
    subst i2. rewrite Hnth1 in Hnth2. injection Hnth2 as <-.
    rewrite Hkey1 in Hkey2. injection Hkey2 as Hk.
    destruct (In_findDuplicates data g1 Hg1) as [E1 _].
    destruct (In_findDuplicates data g2 Hg2) as [E2 _].
    rewrite E1, E2, Hk. reflexivity.
Qed.

Lemma groups_are_disjoint_witness :
  NoDup (map duplicateValue (findDuplicates threeRecords))
  /\ map duplicateValue (findDuplicates threeRecords) = ["ann"].
Proof.
  split; [apply (groups_are_disjoint threeRecords) | reflexivity].
Defined.

(** X10.  The members of the emitted groups are never more than the
    records given to the detector; in a published summary,
    [duplicateCount] never exceeds [totalRecords]. *)
Theorem duplicate_members_bounded :
  (forall data : list object,
     list_sum (map (fun g => List.length (records g)) (findDuplicates data))
     <= List.length data)
  /\ (forall (files : list (File * ParseOutcome)) (out : Output),
        processFiles files = Some out ->
        duplicateCount (results out) <= totalRecords (results out)).
Proof.
  assert (Hbound : forall data : list object,
            list_sum (map (fun g => List.length (records g)) (findDuplicates data))
            <= List.length data).
  { intro data. rewrite findDuplicates_eq, map_map. cbn [records groupOf].
    rewrite (map_ext _ (count_occ string_dec (keysOf (indexedFrom 0 data))))
      by (intro k; apply length_membersOf).
    etransitivity.
    - apply sum_count_occ_le. apply NoDup_filter. apply NoDup_firstSeen.
    - etransitivity; [apply length_keysOf_le|]. rewrite length_indexedFrom. lia. }
  split; [exact Hbound|].
  intros files out Hrun.
  destruct (processFiles_Some files out Hrun) as [allUsers [fileResults [_ ->]]].
  cbn [summarise results duplicateCount totalRecords].
  rewrite (fold_left_sum DuplicateGroup (fun g => List.length (records g))).
  apply Hbound.
Qed.

Lemma duplicate_members_bounded_witness :
  exists out,
    processFiles twoFiles = Some out
    /\ duplicateCount (results out) <= totalRecords (results out).
Proof.
  eexists. split; [reflexivity|].
  apply (proj2 duplicate_members_bounded twoFiles _ eq_refl).
Defined.



(** X14.  A member of an emitted group is a record of the list with its
    position written under [__original_index]; every other field of the
    record is carried over unchanged. *)
Theorem member_keeps_fields (data : list object) (g : DuplicateGroup) (m : object) :
  In g (findDuplicates data) -> In m (records g) ->
  exists i record,
    nth_error data i = Some record
    /\ get m "__original_index" = VNum (Z.of_nat i)
    /\ forall key, key <> "__original_index" -> get m key = get record key.
Proof.
  intros Hg Hm. destruct (member_origin data g m Hg Hm) as [i [record [Hnth [-> _]]]].
  exists i, record. split; [exact Hnth|]. split; [apply withIndex_index|].
  intros key Hkey. unfold withIndex. apply get_set_other. congruence.
Qed.

Lemma member_keeps_fields_witness :
  exists i record,
    nth_error threeRecords i = Some record
    /\ get (withIndex 2 [("Name", VStr " ann ")]) "__original_index" = VNum (Z.of_nat i)
    /\ forall key, key <> "__original_index" ->
                   get (withIndex 2 [("Name", VStr " ann ")]) key = get record key.
Proof.
  apply (member_keeps_fields threeRecords
           (groupOf "ann" (membersOf "ann" (indexedFrom 0 threeRecords)))).
  - left. reflexivity.
  - right. left. reflexivity.
Defined.

(* ================================================================== *)
(** ** Export and display *)
(* ================================================================== *)

Section Display.

Lemma In_firstn (A : Type) (n : nat) (l : list A) (x : A) :
  In x (firstn n l) -> In x l.
Proof.
  revert l. induction n as [|n IH]; intros l H; simpl in H; [contradiction|].
  destruct l as [|y l]; [contradiction|].
  destruct H as [-> | H]; [left; reflexivity | right; apply IH; exact H].
Qed.

Lemma length_duplicateRecords (duplicates : list DuplicateGroup) :
  List.length (duplicateRecords duplicates) =
  list_sum (map (fun g => List.length (records g)) duplicates).
Proof.
  unfold duplicateRecords.
  induction duplicates as [|g duplicates IH]; simpl; [reflexivity|].
  rewrite length_app, length_map. unfold list_sum in IH. rewrite IH. reflexivity.
Qed.

(** Every record of a published run is an extracted record. *)
Lemma combined_record_extracted
  (files : list (File * ParseOutcome)) (out : Output) (record : object) :
  processFiles files = Some out ->
  In record (combinedData out) ->
  exists file i row, record = extractRow file i row.
Proof.
  intros Hrun Hin. destruct (processFiles_completed files out Hrun) as [tables [-> ->]].
  cbn [summarise combinedData] in Hin.
  destruct (In_gather tables record 0 Hin) as [j [file [result [row [_ [_ ->]]]]]].
  exists file, (0 + j), row. reflexivity.
Qed.

(** Every member of a published group is an extracted record with its
    position. *)
Lemma published_member_extracted
  (files : list (File * ParseOutcome)) (out : Output) (g : DuplicateGroup) (m : object) :
  processFiles files = Some out ->
  In g (duplicates out) -> In m (records g) ->
  exists index file i row, m = withIndex index (extractRow file i row).
Proof.
  intros Hrun Hg Hm.
  assert (Hdup : duplicates out = findDuplicates (combinedData out)).
  { destruct (processFiles_Some files out Hrun) as [allUsers [fileResults [_ ->]]].
    reflexivity. }
  rewrite Hdup in Hg.
  destruct (member_origin _ g m Hg Hm) as [index [record [Hnth [-> _]]]].
  apply nth_error_In in Hnth.
  destruct (combined_record_extracted files out record Hrun Hnth) as [file [i [row ->]]].
  exists index, file, i, row. reflexivity.
Qed.

(** The representative value of an emitted group is truthy. *)
Lemma originalName_truthy (data : list object) (g : DuplicateGroup) :
  In g (findDuplicates data) -> truthy (originalName g) = true.
Proof.
  intro Hg. destruct (In_findDuplicates data g Hg) as [Heq [Hlen _]].
  destruct (records g) as [|m rest] eqn:Hrec; [simpl in Hlen; lia|].
  assert (Hm : In m (records g)) by (rewrite Hrec; left; reflexivity).
  destruct (member_origin data g m Hg Hm) as [i [first [_ [-> Hkey]]]].
  rewrite Heq. unfold groupOf. cbn [originalName].
  rewrite Heq in Hrec. cbn [records groupOf] in Hrec. rewrite Hrec. simpl nth.
  rewrite withIndex_name. apply groupingKey_Some in Hkey. apply Hkey.
Qed.

End Display.

(** X15.  The duplicates export of a published run has one row per member
    of every published group: as many rows as the summary's
    [duplicateCount]. *)
Theorem export_has_duplicateCount_rows
  (files : list (File * ParseOutcome)) (out : Output) :
  processFiles files = Some out ->
  List.length (duplicateRecords (duplicates out)) = duplicateCount (results out).
Proof.
  intro Hrun. rewrite length_duplicateRecords.
  destruct (processFiles_Some files out Hrun) as [allUsers [fileResults [_ ->]]].
  cbn [summarise results duplicates duplicateCount].
  symmetry. apply (fold_left_sum DuplicateGroup (fun g => List.length (records g))).
Qed.

Lemma export_has_duplicateCount_rows_witness :
  exists out,
    processFiles twoFiles = Some out
    /\ List.length (duplicateRecords (duplicates out)) = 2.
Proof.
  eexists. split; [reflexivity|].
  rewrite (export_has_duplicateCount_rows twoFiles _ eq_refl). reflexivity.
Defined.

(** X16.  For the groups the detector emits, the fallback of
    [originalName || duplicateValue] is never taken; and in a published
    run every export row is the member with two columns put in front:
    [duplicate_name], the group's representative value, and
    [duplicate_type], the text [Name]. *)
Theorem export_row_shape :
  (forall (data : list object) (g : DuplicateGroup),
     In g (findDuplicates data) ->
     orElse (originalName g) (VStr (duplicateValue g)) = originalName g)
  /\ (forall (files : list (File * ParseOutcome)) (out : Output)
             (g : DuplicateGroup) (m : object),
        processFiles files = Some out ->
        In g (duplicates out) -> In m (records g) ->
        duplicateRow g m =
        ("duplicate_name", originalName g) :: ("duplicate_type", VStr "Name") :: m).
Proof.
  assert (Hor : forall (data : list object) (g : DuplicateGroup),
            In g (findDuplicates data) ->
            orElse (originalName g) (VStr (duplicateValue g)) = originalName g).
  { intros data g Hg. unfold orElse. rewrite (originalName_truthy data g Hg). reflexivity. }
  split; [exact Hor|].
  intros files out g m Hrun Hg Hm.
  destruct (published_member_extracted files out g m Hrun Hg Hm)
    as [index [file [i [row ->]]]].
  assert (Hdup : duplicates out = findDuplicates (combinedData out)).
  { destruct (processFiles_Some files out Hrun) as [allUsers [fileResults [_ ->]]].
    reflexivity. }
  rewrite Hdup in Hg.
  unfold duplicateRow. rewrite (Hor _ g Hg), extractRow_eq. reflexivity.
Qed.

Lemma export_row_shape_witness :
  duplicateRow aliceGroup aliceMember =
  ("duplicate_name", originalName aliceGroup) :: ("duplicate_type", VStr "Name") :: aliceMember.
Proof.
  apply (proj2 export_row_shape twoFiles (summarise 2 (gather
           [({| name := "one.csv" |}, alice1); ({| name := "two.csv" |}, alice2)] 0,
           summaries
           [({| name := "one.csv" |}, alice1); ({| name := "two.csv" |}, alice2)] 0))).
  - reflexivity.
  - left. reflexivity.
  - left. reflexivity.
Defined.

(** X17.  The data preview of a published run shows at most ten records;
    its header is the four target fields when there is a record to show,
    and every row holds the text of these four fields, in header order:
    the provenance columns are not shown and the rows line up with the
    header. *)
Theorem preview_lines_up (files : list (File * ParseOutcome)) (out : Output) :
  processFiles files = Some out ->
  previewRows (combinedData out) =
    map (fun record => map (fun field => ToString (get record field)) requiredFields)
        (firstn 10 (combinedData out))
  /\ (combinedData out <> [] -> previewHeader (combinedData out) = requiredFields)
  /\ List.length (previewRows (combinedData out)) = Nat.min 10 (totalRecords (results out)).
Proof.
  intro Hrun. split; [|split].
  - unfold previewRows. apply map_ext_in. intros record Hin. apply In_firstn in Hin.
    destruct (combined_record_extracted files out record Hrun Hin) as [file [i [row ->]]].
    rewrite extractRow_eq. reflexivity.
  - intro Hne. unfold previewHeader.
    destruct (combinedData out) as [|record rest] eqn:Hdata; [contradiction|].
    assert (Hin : In record (combinedData out)) by (rewrite Hdata; left; reflexivity).
    destruct (combined_record_extracted files out record Hrun Hin) as [file [i [row ->]]].
    cbn [List.length Nat.ltb Nat.leb nth]. rewrite extractRow_eq. reflexivity.
  - unfold previewRows. rewrite length_map, length_firstn.
    destruct (processFiles_Some files out Hrun) as [allUsers [fileResults [_ ->]]].
    reflexivity.
Qed.

Lemma preview_lines_up_witness :
  exists out,
    processFiles twoFiles = Some out
    /\ previewHeader (combinedData out) = requiredFields
    /\ List.length (previewRows (combinedData out)) = 2.
Proof.
  eexists. split; [reflexivity|].
  destruct (preview_lines_up twoFiles _ eq_refl) as [_ [Hheader Hrows]].
  split; [apply Hheader; discriminate | rewrite Hrows; reflexivity].
Defined.

(** X18.  For a member of a published group, the duplicates view shows the
    four target fields with their text and nothing else: the limit of five
    entries cuts nothing and neither the provenance nor the position is
    shown. *)
Theorem member_cells_are_target_fields
  (files : list (File * ParseOutcome)) (out : Output) (g : DuplicateGroup) (m : object) :
  processFiles files = Some out ->
  In g (duplicates out) -> In m (records g) ->
  memberCells m = map (fun field => (field, ToString (get m field))) requiredFields.
Proof.
  intros Hrun Hg Hm.
  destruct (published_member_extracted files out g m Hrun Hg Hm)
    as [index [file [i [row ->]]]].
  rewrite extractRow_eq. reflexivity.
Qed.

Lemma member_cells_are_target_fields_witness :
  memberCells aliceMember =
  map (fun field => (field, ToString (get aliceMember field))) requiredFields.
Proof.
  apply (member_cells_are_target_fields twoFiles (summarise 2 (gather
           [({| name := "one.csv" |}, alice1); ({| name := "two.csv" |}, alice2)] 0,
           summaries
           [({| name := "one.csv" |}, alice1); ({| name := "two.csv" |}, alice2)] 0))
           aliceGroup).
  - reflexivity.
  - left. reflexivity.
  - left. reflexivity.
Defined.

(* ================================================================== *)
(** ** The detector over the engine's string functions *)
(* ================================================================== *)

(** The top-level detector is the instance of [Engine] on ASCII text. *)
Lemma findDuplicates_instance (data : list object) :
  findDuplicates data = Engine.findDuplicates JS.toLowerCase JS.trim data.
Proof. reflexivity. Qed.

Section EngineDetector.

(** [String.prototype.toLowerCase] and [String.prototype.trim]: nothing is
    assumed of them. *)
Variable toLowerCase : string -> string.
Variable trim : string -> string.

Local Abbreviation groupRecord := (Engine.groupRecord toLowerCase trim).
Local Abbreviation findDuplicates := (Engine.findDuplicates toLowerCase trim).
Local Abbreviation groupingKey := (Engine.groupingKey toLowerCase trim).
Local Abbreviation hasKey := (Engine.hasKey toLowerCase trim).
Local Abbreviation membersOf := (Engine.membersOf toLowerCase trim).
Local Abbreviation keysOf := (Engine.keysOf toLowerCase trim).
Local Abbreviation fileEntry := (Engine.fileEntry toLowerCase trim).
Local Abbreviation groupsTable := (Engine.groupsTable toLowerCase trim).
Local Abbreviation spec_whitespaceOnly := (Engine.spec_whitespaceOnly trim).
Local Abbreviation spec_normalizedKey := (Engine.spec_normalizedKey toLowerCase trim).

Lemma engine_groupingKey_Some (v : value) (k : string) :
  groupingKey v = Some k ->
  truthy v = true /\ trim (ToString v) <> "" /\ k = trim (toLowerCase (ToString v)).
Proof.
  unfold Engine.groupingKey. intro H.
  destruct (truthy v); simpl in H; [|discriminate H].
  destruct (trim (ToString v) =? "") eqn:E; simpl in H; [discriminate H|].
  injection H as <-. apply String.eqb_neq in E. auto.
Qed.

Lemma engine_groupingKey_kept (v : value) :
  truthy v = true -> spec_whitespaceOnly v = false ->
  groupingKey v = Some (trim (toLowerCase (ToString v))).
Proof.
  intros Ht Hws. unfold Engine.spec_whitespaceOnly in Hws.
  rewrite (truthy_not_empty v Ht) in Hws. simpl in Hws.
  unfold Engine.groupingKey. rewrite Ht, Hws. reflexivity.
Qed.

Lemma engine_groupingKey_excluded (v : value) :
  spec_emptyValue v = true \/ spec_whitespaceOnly v = true ->
  groupingKey v = None.
Proof.
  unfold Engine.groupingKey. intros [He | Hws].
  - rewrite (empty_not_truthy v He). reflexivity.
  - unfold Engine.spec_whitespaceOnly in Hws. apply andb_true_iff in Hws.
    destruct Hws as [_ Hws]. rewrite Hws. simpl. rewrite andb_false_r. reflexivity.
Qed.

Lemma engine_groupRecord_eq (nameMap : Map (list object)) (record : object) (index : nat) :
  groupRecord nameMap record index =
  match groupingKey (get record nameField) with
  | Some k =>
      Map_push (if negb (Map_has nameMap k) then Map_set nameMap k [] else nameMap)
               k (withIndex index record)
  | None => nameMap
  end.
Proof.
  unfold Engine.groupRecord, Engine.groupingKey, withIndex.
  destruct (truthy (get record nameField) && negb (trim (ToString (get record nameField)) =? ""));
    reflexivity.
Qed.

Lemma engine_forEach_indexedFrom (data : list object) :
  forall i nameMap,
    forEach groupRecord data i nameMap = fold_left fileEntry (indexedFrom i data) nameMap.
Proof.
  induction data as [|record data IH]; intros i nameMap; simpl; [reflexivity|].
  apply IH.
Qed.

Lemma engine_keysOf_app (l1 l2 : list (nat * object)) :
  keysOf (l1 ++ l2) = keysOf l1 ++ keysOf l2.
Proof.
  induction l1 as [|e l1 IH]; simpl; [reflexivity|].
  destruct (groupingKey (get (snd e) nameField)); rewrite IH; reflexivity.
Qed.

Lemma engine_membersOf_app (k : string) (l1 l2 : list (nat * object)) :
  membersOf k (l1 ++ l2) = membersOf k l1 ++ membersOf k l2.
Proof. unfold Engine.membersOf. rewrite filter_app, map_app. reflexivity. Qed.

Lemma engine_In_keysOf (k : string) (items : list (nat * object)) :
  In k (keysOf items) <-> exists e, In e items /\ hasKey k e = true.
Proof.
  unfold Engine.hasKey. induction items as [|e items IH]; simpl.
  - split; [contradiction | intros [e [[] _]]].
  - destruct (groupingKey (get (snd e) nameField)) as [k'|] eqn:E; simpl; rewrite IH.
    + split.
      * intros [-> | [e' [Hin Hk]]].
        -- exists e. split; [left; reflexivity|]. rewrite E. apply String.eqb_refl.
        -- exists e'. split; [right; exact Hin | exact Hk].
      * intros [e' [[<- | Hin] Hk]].
        -- rewrite E in Hk. left. apply String.eqb_eq. exact Hk.
        -- right. exists e'. split; assumption.
    + split.
      * intros [e' [Hin Hk]]. exists e'. split; [right; exact Hin | exact Hk].
      * intros [e' [[<- | Hin] Hk]].
        -- rewrite E in Hk. discriminate Hk.
        -- exists e'. split; assumption.
Qed.

Lemma engine_membersOf_absent (k : string) (items : list (nat * object)) :
  ~ In k (keysOf items) -> membersOf k items = [].
Proof.
  intro Hnot. unfold Engine.membersOf.
  replace (filter (hasKey k) items) with (@nil (nat * object)); [reflexivity|].
  symmetry. induction items as [|e items IH]; simpl; [reflexivity|].
  destruct (hasKey k e) eqn:E.
  - exfalso. apply Hnot. apply engine_In_keysOf. exists e. split; [left; reflexivity | exact E].
  - apply IH. intro Hin. apply Hnot. apply engine_In_keysOf.
    apply engine_In_keysOf in Hin. destruct Hin as [e' [Hin Hk]].
    exists e'. split; [right; exact Hin | exact Hk].
Qed.

Lemma engine_In_membersOf (k : string) (data : list object) (m : object) :
  In m (membersOf k (indexedFrom 0 data)) ->
  exists i record,
    nth_error data i = Some record /\
    m = withIndex i record /\
    groupingKey (get record nameField) = Some k.
Proof.
  unfold Engine.membersOf. intro H. apply in_map_iff in H.
  destruct H as [[i record] [<- Hin]]. apply filter_In in Hin.
  destruct Hin as [Hin Hk]. apply In_indexedFrom in Hin.
  destruct Hin as [_ Hnth]. rewrite Nat.sub_0_r in Hnth.
  exists i, record. simpl. repeat split; [exact Hnth|].
  unfold Engine.hasKey in Hk. simpl in Hk.
  destruct (groupingKey (get record nameField)) as [k'|]; [|discriminate Hk].
  apply String.eqb_eq in Hk. subst k'. reflexivity.
Qed.

Lemma engine_In_indexed_member (data : list object) (i : nat) (record : object) (k : string) :
  nth_error data i = Some record ->
  groupingKey (get record nameField) = Some k ->
  In (i, record) (filter (hasKey k) (indexedFrom 0 data)).
Proof.
  intros Hnth Hkey. apply filter_In. split.
  - apply In_indexedFrom. split; [lia|]. rewrite Nat.sub_0_r. exact Hnth.
  - unfold Engine.hasKey. simpl. rewrite Hkey. apply String.eqb_refl.
Qed.

Lemma engine_length_membersOf (k : string) (items : list (nat * object)) :
  List.length (membersOf k items) = count_occ string_dec (keysOf items) k.
Proof.
  unfold Engine.membersOf. rewrite length_map.
  induction items as [|e items IH]; simpl; [reflexivity|].
  unfold Engine.hasKey at 1.
  destruct (groupingKey (get (snd e) nameField)) as [k'|]; [|exact IH].
  simpl. destruct (string_dec k' k) as [-> | Hne].
  - rewrite String.eqb_refl. simpl. rewrite IH. reflexivity.
  - rewrite (eqb_false_of_neq _ _ Hne). exact IH.
Qed.

(** Filing one more record keeps the table in its first-seen shape. *)
Lemma engine_fileEntry_groupsTable (items : list (nat * object)) (entry : nat * object) :
  fileEntry (groupsTable items) entry = groupsTable (items ++ [entry]).
Proof.
  unfold Engine.fileEntry. rewrite engine_groupRecord_eq. unfold Engine.groupsTable.
  rewrite engine_keysOf_app. simpl Engine.keysOf.
  destruct (groupingKey (get (snd entry) nameField)) as [k|] eqn:Hkey.
  - assert (Hat : membersOf k (items ++ [entry]) =
                  membersOf k items ++ [withIndex (fst entry) (snd entry)]).
    { rewrite engine_membersOf_app. f_equal. unfold Engine.membersOf, Engine.hasKey. simpl.
      rewrite Hkey, String.eqb_refl. reflexivity. }
    assert (Hoff : forall k', k' <> k ->
                     membersOf k' (items ++ [entry]) = membersOf k' items).
    { intros k' Hne. rewrite engine_membersOf_app.
      unfold Engine.membersOf at 2. unfold Engine.hasKey. simpl.
      rewrite Hkey. rewrite (eqb_false_of_neq k k') by congruence.
      simpl. apply app_nil_r. }
    rewrite firstSeen_snoc, Map_has_table.
    destruct (existsb (fun k' => k' =? k) (firstSeen (keysOf items))) eqn:Hseen.
    + assert (Hin : In k (keysOf items)).
      { apply In_firstSeen. apply existsb_eqb_In. exact Hseen. }
      replace (existsb (fun k' => k' =? k) (keysOf items)) with true
        by (symmetry; apply existsb_eqb_In; exact Hin).
      simpl negb. cbv iota.
      apply Map_push_present; auto using NoDup_firstSeen.
      apply In_firstSeen. exact Hin.
    + assert (Hnot : ~ In k (keysOf items)).
      { intro Hin. apply In_firstSeen in Hin. apply existsb_eqb_In in Hin. congruence. }
      replace (existsb (fun k' => k' =? k) (keysOf items)) with false.
      2:{ symmetry. apply not_true_iff_false. intro H. apply Hnot. apply existsb_eqb_In. exact H. }
      simpl negb. cbv iota.
      rewrite Map_set_absent by (rewrite Map_has_table; exact Hseen).
      rewrite Map_push_last by (rewrite Map_has_table; exact Hseen).
      rewrite map_app. simpl. rewrite Hat, (engine_membersOf_absent k items Hnot). simpl.
      f_equal. apply table_off with (k := k); [exact Hoff|].
      intro Hin. apply Hnot. apply In_firstSeen. exact Hin.
  - rewrite app_nil_r. apply map_ext. intro k.
    rewrite engine_membersOf_app. unfold Engine.membersOf at 3. unfold Engine.hasKey. simpl.
    rewrite Hkey. simpl. rewrite app_nil_r. reflexivity.
Qed.

Lemma engine_fold_fileEntry (items : list (nat * object)) :
  fold_left fileEntry items [] = groupsTable items.
Proof.
  induction items as [|entry items IH] using rev_ind; [reflexivity|].
  rewrite fold_left_app. simpl. rewrite IH. apply engine_fileEntry_groupsTable.
Qed.

Lemma engine_keysOf_no_truthy (data : list object) :
  existsb (fun record => truthy (get record nameField)) data = false ->
  forall i, keysOf (indexedFrom i data) = [].
Proof.
  induction data as [|record data IH]; simpl; intros H i; [reflexivity|].
  apply orb_false_iff in H. destruct H as [Hr Hd].
  unfold Engine.groupingKey. rewrite Hr. simpl. apply IH. exact Hd.
Qed.

(** [findDuplicates] in closed form, whatever the engine's lowercasing and
    trimming: the keys with at least two members, in first-seen order, each
    with its members in list order. *)
Lemma engine_findDuplicates_eq (data : list object) :
  findDuplicates data =
  map (fun k => groupOf k (membersOf k (indexedFrom 0 data)))
      (filter (fun k => (1 <? List.length (membersOf k (indexedFrom 0 data)))%nat)
              (firstSeen (keysOf (indexedFrom 0 data)))).
Proof.
  unfold Engine.findDuplicates.
  destruct (existsb (fun record => truthy (get record nameField)) data) eqn:E; simpl.
  - rewrite engine_forEach_indexedFrom, engine_fold_fileEntry, fold_emitGroup. simpl.
    unfold Engine.groupsTable. rewrite filter_map_comm, map_map. reflexivity.
  - rewrite (engine_keysOf_no_truthy data E 0). reflexivity.
Qed.

Lemma engine_In_findDuplicates (data : list object) (g : DuplicateGroup) :
  In g (findDuplicates data) ->
  g = groupOf (duplicateValue g) (membersOf (duplicateValue g) (indexedFrom 0 data)) /\
  2 <= List.length (records g) /\
  In (duplicateValue g) (keysOf (indexedFrom 0 data)).
Proof.
  rewrite engine_findDuplicates_eq. intro H. apply in_map_iff in H.
  destruct H as [k [<- Hin]]. apply filter_In in Hin. destruct Hin as [Hin Hlen].
  apply Nat.ltb_lt in Hlen. rewrite In_firstSeen in Hin. simpl.
  repeat split; [lia | exact Hin].
Qed.

Lemma engine_member_origin (data : list object) (g : DuplicateGroup) (m : object) :
  In g (findDuplicates data) -> In m (records g) ->
  exists i record,
    nth_error data i = Some record /\
    m = withIndex i record /\
    groupingKey (get record nameField) = Some (duplicateValue g).
Proof.
  intros Hg Hm. apply engine_In_findDuplicates in Hg. destruct Hg as [Hg _].
  rewrite Hg in Hm. simpl in Hm. apply engine_In_membersOf. exact Hm.
Qed.

(** C1, amended.  Whatever the engine's lowercasing and trimming do: a
    record whose identity value is truthy and not whitespace-only is filed
    under the key made of its identity value, coerced to string, lowercased
    and trimmed; a record whose identity value is empty or whitespace-only
    leaves the map as it was; no member of an emitted group has an empty or
    whitespace-only identity value, and the group's key is the member's
    identity value lowercased and trimmed.  Where trimming and lowercasing
    commute, that key is the identity value trimmed and then lowercased. *)
Theorem grouping_key_trimmed_lowercased :
  (forall (nameMap : Map (list object)) (record : object) (index : nat),
     truthy (get record nameField) = true ->
     spec_whitespaceOnly (get record nameField) = false ->
     exists members,
       In (trim (toLowerCase (ToString (get record nameField))),
           members ++ [withIndex index record])
          (groupRecord nameMap record index))
  /\ (forall (nameMap : Map (list object)) (record : object) (index : nat),
     spec_emptyValue (get record nameField) = true \/
     spec_whitespaceOnly (get record nameField) = true ->
     groupRecord nameMap record index = nameMap)
  /\ (forall (data : list object) (g : DuplicateGroup) (m : object),
     In g (findDuplicates data) -> In m (records g) ->
     spec_emptyValue (get m nameField) = false
     /\ spec_whitespaceOnly (get m nameField) = false
     /\ duplicateValue g = trim (toLowerCase (ToString (get m nameField))))
  /\ ((forall s, trim (toLowerCase s) = toLowerCase (trim s)) ->
      forall v, trim (toLowerCase (ToString v)) = spec_normalizedKey v).
Proof.
  split; [|split; [|split]].
  - intros nameMap record index Ht Hws.
    rewrite engine_groupRecord_eq, (engine_groupingKey_kept _ Ht Hws).
    apply Map_push_In.
    destruct (Map_has nameMap (trim (toLowerCase (ToString (get record nameField))))) eqn:E;
      simpl.
    + exact E.
    + apply Map_has_set.
  - intros nameMap record index Hex.
    rewrite engine_groupRecord_eq, (engine_groupingKey_excluded _ Hex). reflexivity.
  - intros data g m Hg Hm.
    destruct (engine_member_origin data g m Hg Hm) as [i [record [_ [-> Hkey]]]].
    rewrite withIndex_name.
    apply engine_groupingKey_Some in Hkey. destruct Hkey as [Ht [Htrim Hk]].
    split; [exact (truthy_not_empty _ Ht)|]. split; [|exact Hk].
    unfold Engine.spec_whitespaceOnly.
    rewrite (eqb_false_of_neq _ _ Htrim). apply andb_false_r.
  - intros Hcommute v. unfold Engine.spec_normalizedKey. apply Hcommute.
Qed.

(** C2.  Whatever the engine's lowercasing and trimming do: every emitted
    group has at least two members; the keys of the emitted groups are the
    keys with at least two members, in the order in which the keys are
    first seen in the list; the members of a group are the records filed
    under its key, in list order; and the representative value of a group
    is the identity value, as it stands in the list, of its first member. *)
Theorem duplicate_groups_shape (data : list object) :
  Forall (fun g => 2 <= List.length (records g)) (findDuplicates data)
  /\ map duplicateValue (findDuplicates data) =
     filter (fun k => (2 <=? List.length (membersOf k (indexedFrom 0 data)))%nat)
            (firstSeen (keysOf (indexedFrom 0 data)))
  /\ Forall (fun g => records g = membersOf (duplicateValue g) (indexedFrom 0 data))
            (findDuplicates data)
  /\ Forall (fun g => exists i first rest,
                 records g = withIndex i first :: rest /\
                 nth_error data i = Some first /\
                 originalName g = get first nameField)
            (findDuplicates data).
Proof.
  split; [|split; [|split]].
  - apply Forall_forall. intros g Hg. apply (engine_In_findDuplicates data g Hg).
  - rewrite engine_findDuplicates_eq, map_map. simpl. apply map_id.
  - apply Forall_forall. intros g Hg.
    destruct (engine_In_findDuplicates data g Hg) as [Heq _]. rewrite Heq at 1. reflexivity.
  - apply Forall_forall. intros g Hg.
    destruct (engine_In_findDuplicates data g Hg) as [Heq [Hlen _]].
    destruct (records g) as [|m rest] eqn:Hrec; [simpl in Hlen; lia|].
    assert (Hm : In m (records g)) by (rewrite Hrec; left; reflexivity).
    destruct (engine_member_origin data g m Hg Hm) as [i [first [Hnth [-> _]]]].
    exists i, first, rest. split; [reflexivity|]. split; [exact Hnth|].
    rewrite Heq. unfold groupOf. cbn [originalName].
    rewrite Heq in Hrec. cbn [records groupOf] in Hrec. rewrite Hrec. simpl nth.
    apply withIndex_name.
Qed.

(** X11.  Whatever the engine's lowercasing and trimming do: two records
    at different positions whose identity values give the same grouping
    key are reported together: one emitted group has that key and holds
    the copies of both. *)
Theorem same_key_reported_together
  (data : list object) (i j : nat) (r1 r2 : object) (k : string) :
  i <> j ->
  nth_error data i = Some r1 ->
  nth_error data j = Some r2 ->
  groupingKey (get r1 nameField) = Some k ->
  groupingKey (get r2 nameField) = Some k ->
  exists g,
    In g (findDuplicates data)
    /\ duplicateValue g = k
    /\ In (withIndex i r1) (records g)
    /\ In (withIndex j r2) (records g).
Proof.
  intros Hij Hn1 Hn2 Hk1 Hk2.
  pose proof (engine_In_indexed_member data i r1 k Hn1 Hk1) as Hin1.
  pose proof (engine_In_indexed_member data j r2 k Hn2 Hk2) as Hin2.
  exists (groupOf k (membersOf k (indexedFrom 0 data))).
  split; [|split; [reflexivity|]].
  - rewrite engine_findDuplicates_eq.
    apply (in_map (fun k0 => groupOf k0 (membersOf k0 (indexedFrom 0 data)))).
    apply filter_In. split.
    + apply In_firstSeen. apply engine_In_keysOf. exists (i, r1). split.
      * apply filter_In in Hin1. apply Hin1.
      * apply filter_In in Hin1. apply Hin1.
    + apply Nat.ltb_lt. unfold Engine.membersOf. rewrite length_map.
      apply (two_distinct_length _ (i, r1) (j, r2)); [exact Hin1 | exact Hin2 |].
      intro E. injection E as E _. contradiction.
  - cbn [records groupOf]. unfold Engine.membersOf. split.
    + apply (in_map (fun e => withIndex (fst e) (snd e)) _ (i, r1)). exact Hin1.
    + apply (in_map (fun e => withIndex (fst e) (snd e)) _ (j, r2)). exact Hin2.
Qed.

(** X12.  Whatever the engine's lowercasing and trimming do: the detector
    reports no group exactly when the grouping keys of the records are
    pairwise distinct. *)
Theorem no_group_iff_distinct_keys (data : list object) :
  findDuplicates data = [] <-> NoDup (keysOf (indexedFrom 0 data)).
Proof.
  rewrite engine_findDuplicates_eq, (NoDup_count_occ string_dec).
  split.
  - intros Hnil k.
    destruct (in_dec string_dec k (keysOf (indexedFrom 0 data))) as [Hin | Hout].
    + destruct (1 <? List.length (membersOf k (indexedFrom 0 data)))%nat eqn:Hbig.
      * exfalso.
        assert (Hk : In k (filter
                      (fun k0 => (1 <? List.length (membersOf k0 (indexedFrom 0 data)))%nat)
                      (firstSeen (keysOf (indexedFrom 0 data))))).
        { apply filter_In. split; [apply In_firstSeen; exact Hin | exact Hbig]. }
        apply (in_map (fun k0 => groupOf k0 (membersOf k0 (indexedFrom 0 data)))) in Hk.
        rewrite Hnil in Hk. exact Hk.
      * apply Nat.ltb_ge in Hbig. rewrite <- engine_length_membersOf. exact Hbig.
    + apply (count_occ_not_In string_dec) in Hout. rewrite Hout. lia.
  - intro Hcount.
    replace (filter (fun k => (1 <? List.length (membersOf k (indexedFrom 0 data)))%nat)
                    (firstSeen (keysOf (indexedFrom 0 data))))
      with (@nil string); [reflexivity|].
    symmetry.
    induction (firstSeen (keysOf (indexedFrom 0 data))) as [|k keys IH]; simpl; [reflexivity|].
    rewrite engine_length_membersOf.
    pose proof (Hcount k) as Hk. apply Nat.ltb_ge in Hk. rewrite Hk. exact IH.
Qed.

End EngineDetector.

Lemma grouping_key_trimmed_lowercased_witness :
  (exists members,
     In ("alice", members ++ [withIndex 4 [("Name", VStr " Alice ")]])
        (groupRecord [] [("Name", VStr " Alice ")] 4))
  /\ groupRecord [("bob", [])] [("Name", VStr "   ")] 0 = [("bob", [])]
  /\ JS.trim (JS.toLowerCase (ToString (VStr " Alice "))) =
     Engine.spec_normalizedKey JS.toLowerCase JS.trim (VStr " Alice ").
Proof.
  destruct (grouping_key_trimmed_lowercased JS.toLowerCase JS.trim)
    as [Hkey [Hskip [_ Hspec]]].
  split; [|split].
  - apply (Hkey [] [("Name", VStr " Alice ")] 4); reflexivity.
  - apply (Hskip [("bob", [])] [("Name", VStr "   ")] 0). right. reflexivity.
  - apply (Hspec trim_toLowerCase).
Defined.

Lemma same_key_reported_together_witness :
  exists g,
    In g (findDuplicates threeRecords)
    /\ duplicateValue g = "ann"
    /\ In (withIndex 0 [("Name", VStr "Ann")]) (records g)
    /\ In (withIndex 2 [("Name", VStr " ann ")]) (records g).
Proof.
  apply (same_key_reported_together JS.toLowerCase JS.trim threeRecords 0 2); try reflexivity.
  discriminate.
Defined.
